(** * pubsub_TSN_publisher: the cyclic executive of the real-time PubSub example

    A shallow embedding of [examples/pubsub_realtime/pubsub_TSN_publisher.c]:
    the time arithmetic on [struct timespec], the three periodic thread
    routines ([publisherETF], [subscriber], [userApplicationPubSub]), the
    bounded measurement logs and the start-up checks of [main].

    Conventions.
    - Machine integers are [Z] with the wrap-around written out.  [time_t]
      and [__syscall_slong_t] are the 64-bit signed types of LP64 Linux,
      [UA_UInt64] and [size_t] are 64-bit unsigned, [UA_Int32] is 32-bit
      signed.  C leaves signed overflow undefined; the model wraps in two's
      complement as the hardware does, and every statement about exact
      (unwrapped) values carries its representability bound.
    - [UA_Double] is IEEE-754 binary64, computed with the reference
      implementation [SpecFloat] (round to nearest, ties to even).
    - Global variables are the fields of one record that is passed along.
    - What other threads and the operating system do (clock readings, the
      signal handler, the receiver writing the subscribed counter) enters
      as explicit inputs of the loop functions. *)

From Stdlib Require Import ZArith Lia List Bool String.
From Stdlib Require Import SpecFloat.
From stdpp Require Import base list gmap strings.

Open Scope Z_scope.

(** ** Machine integers *)

Definition wrap_u64 (z : Z) : Z := z mod 2 ^ 64.
Definition wrap_s64 (z : Z) : Z := (z + 2 ^ 63) mod 2 ^ 64 - 2 ^ 63.
Definition wrap_s32 (z : Z) : Z := (z + 2 ^ 31) mod 2 ^ 32 - 2 ^ 31.

Definition is_u64 (z : Z) : Prop := 0 <= z < 2 ^ 64.
Definition is_s64 (z : Z) : Prop := - 2 ^ 63 <= z < 2 ^ 63.

(** ** Binary64 arithmetic *)

Definition UA_Double : Set := spec_float.

Definition dbl_prec : Z := 53.
Definition dbl_emax : Z := 1024.

Definition dbl_mul : UA_Double -> UA_Double -> UA_Double := SFmul dbl_prec dbl_emax.
Definition dbl_sub : UA_Double -> UA_Double -> UA_Double := SFsub dbl_prec dbl_emax.
Definition dbl_div : UA_Double -> UA_Double -> UA_Double := SFdiv dbl_prec dbl_emax.
Definition dbl_ltb : UA_Double -> UA_Double -> bool := SFltb.

(** The usual arithmetic conversion of an integer operand to [double]. *)
Definition dbl_of_Z (z : Z) : UA_Double := binary_normalize dbl_prec dbl_emax z 0 false.

(** A decimal literal [n/d] of the source, correctly rounded. *)
Definition dbl_lit (n d : Z) : UA_Double := dbl_div (dbl_of_Z n) (dbl_of_Z d).


(** Truncation toward zero, the rounding of a C cast from [double] to an
    integer type; [None] for infinities and NaN. *)
Definition dbl_trunc (f : UA_Double) : option Z :=
  match f with
  | S754_zero _ => Some 0
  | S754_finite s m e =>
      Some (cond_Zopp s (if 0 <=? e then Z.pos m * 2 ^ e else Z.pos m / 2 ^ (- e)))
  | S754_infinity _ | S754_nan => None
  end.

(** [(__syscall_slong_t) f].  Outside the range of the destination the cast
    is undefined in C; the model returns the x86-64 "integer indefinite"
    value there. *)
Definition dbl_to_slong (f : UA_Double) : Z :=
  match dbl_trunc f with
  | Some z => if (- 2 ^ 63 <=? z) && (z <? 2 ^ 63) then z else - 2 ^ 63
  | None => - 2 ^ 63
  end.

(** [(UA_UInt64) f], with the same proviso outside [0, 2^64): there the
    model returns what the x86-64 conversion sequence of gcc returns.  A
    value that does not compare at or above [2^63] (a negative one, negative
    infinity, NaN) goes through the [long] conversion and is reinterpreted;
    for any other the sequence converts [f - 2^63] and flips the top bit,
    which gives 0 for values of [2^64] and more and for positive
    infinity. *)
Definition dbl_to_uint64 (f : UA_Double) : Z :=
  match dbl_trunc f with
  | Some z =>
      if (0 <=? z) && (z <? 2 ^ 64) then z
      else if z <? 0 then wrap_u64 (dbl_to_slong f) else 0
  | None =>
      match f with
      | S754_infinity false => 0
      | _ => wrap_u64 (dbl_to_slong f)
      end
  end.

(** ** Constants of the source *)

(** [#define MILLI_SECONDS 1000 * 1000] and [#define SECONDS 1000 * 1000 * 1000]
    are unparenthesised token sequences.  In integer context every use in
    the file ([> (SECONDS -1)], [-= SECONDS], [* SECONDS]) has the value of
    the product; in [double] context [x * MILLI_SECONDS] is [(x * 1000) * 1000],
    two rounded multiplications, which [mul_MILLI_SECONDS] spells out. *)
Definition SECONDS : Z := 1000 * 1000 * 1000.
Definition mul_MILLI_SECONDS (x : UA_Double) : UA_Double :=
  dbl_mul (dbl_mul x (dbl_of_Z 1000)) (dbl_of_Z 1000).

Definition SECONDS_SLEEP : Z := 5.
Definition SECONDS_INCREMENT : Z := 1.
Definition MAX_MEASUREMENTS : Z := 10000000.
Definition REPEATED_NODECOUNTS : nat := 2.

Definition DEFAULT_CYCLE_TIME : UA_Double := dbl_lit 25 100.
Definition DEFAULT_QBV_OFFSET : Z := 125.
Definition DEFAULT_SOCKET_PRIORITY : Z := 3.
Definition DEFAULT_PUB_SCHED_PRIORITY : Z := 78.
Definition DEFAULT_SUB_SCHED_PRIORITY : Z := 81.
Definition DEFAULT_USERAPPLICATION_SCHED_PRIORITY : Z := 75.
Definition DEFAULT_PUB_CORE : Z := 2.
Definition DEFAULT_SUB_CORE : Z := 2.
Definition DEFAULT_USER_APP_CORE : Z := 3.

(** The three wake-up fractions are file-scope statics that nothing in the
    file assigns. *)
Definition pubWakeupPercentage : UA_Double := dbl_lit 6 10.
Definition subWakeupPercentage : UA_Double := dbl_of_Z 0.
Definition userAppWakeupPercentage : UA_Double := dbl_lit 3 10.

(** ** Time arithmetic *)

Record timespec : Set := mk_timespec { tv_sec : Z; tv_nsec : Z }.

Definition valid_timespec (t : timespec) : Prop :=
  is_s64 (tv_sec t) /\ is_s64 (tv_nsec t).

(** The instant a [timespec] denotes, in nanoseconds, as an exact integer. *)
Definition timespec_ns (t : timespec) : Z := tv_sec t * SECONDS + tv_nsec t.

(** The [while] loop of [nanoSecondFieldConversion], with a bound on the
    number of iterations; [None] when the bound is used up while the loop
    condition still holds. *)
Fixpoint nanoSecondFieldConversion_loop (fuel : nat) (t : timespec) : option timespec :=
  if tv_nsec t >? SECONDS - 1 then
    match fuel with
    | O => None
    | S fuel' =>
        nanoSecondFieldConversion_loop fuel'
          {| tv_sec := wrap_s64 (tv_sec t + SECONDS_INCREMENT);
             tv_nsec := wrap_s64 (tv_nsec t - SECONDS) |}
    end
  else Some t.

(** Each iteration takes one second off a positive nanosecond field, so
    [tv_nsec / SECONDS] iterations are enough (see
    [nanoSecondFieldConversion_loop_terminates]). *)
Definition nanoSecondFieldConversion_bound (t : timespec) : nat :=
  Z.to_nat (tv_nsec t / SECONDS).

Definition nanoSecondFieldConversion (t : timespec) : timespec :=
  match nanoSecondFieldConversion_loop (nanoSecondFieldConversion_bound t) t with
  | Some r => r
  | None => t
  end.

(** The two statements that end every loop body of the thread routines,
    [next.tv_nsec += (__syscall_slong_t) d; nanoSecondFieldConversion(&next);]. *)
Definition advance_deadline (d : Z) (next : timespec) : timespec :=
  nanoSecondFieldConversion
    {| tv_sec := tv_sec next; tv_nsec := wrap_s64 (tv_nsec next + d) |}.

(** The deadline after [k] passes through the end of a loop body. *)
Definition deadline_after (d : Z) (k : nat) (next : timespec) : timespec :=
  Nat.iter k (advance_deadline d) next.

(** ** Configuration

    [interface] is the local of [main]; the other fields are the file-scope
    statics that the command line can set. *)

Record config : Type := mk_config {
  interface : option string;
  cycleTimeInMsec : UA_Double;
  socketPriority : Z;
  pubPriority : Z;
  subPriority : Z;
  userAppPriority : Z;
  pubCore : Z;
  subCore : Z;
  userAppCore : Z;
  pubMacAddress : string;
  subMacAddress : string;
  qbvOffset : Z;
  disableSoTxtime : bool;
  enableCsvLog : bool
}.

Definition default_config : config :=
  {| interface := None;
     cycleTimeInMsec := DEFAULT_CYCLE_TIME;
     socketPriority := DEFAULT_SOCKET_PRIORITY;
     pubPriority := DEFAULT_PUB_SCHED_PRIORITY;
     subPriority := DEFAULT_SUB_SCHED_PRIORITY;
     userAppPriority := DEFAULT_USERAPPLICATION_SCHED_PRIORITY;
     pubCore := DEFAULT_PUB_CORE;
     subCore := DEFAULT_SUB_CORE;
     userAppCore := DEFAULT_USER_APP_CORE;
     pubMacAddress := "opc.eth://01-00-5E-7F-00-01:8.3";
     subMacAddress := "opc.eth://01-00-5E-00-00-01:8.3";
     qbvOffset := DEFAULT_QBV_OFFSET;
     disableSoTxtime := true;
     enableCsvLog := false |}.

(** ** Shared state

    The global variables the thread routines read and write.  The arrays
    [publishCounterValue], [publishTimestamp], [subscribeCounterValue] and
    [subscribeTimestamp] have [MAX_MEASUREMENTS] elements each; they are
    finite maps from the indices written so far to the values stored.
    [repeatedCounterData] lists the contents of the cells its
    [REPEATED_NODECOUNTS] pointers refer to. *)

Record globals : Type := mk_globals {
  running : bool;
  pubCounterData : Z;
  repeatedCounterData : list Z;
  subCounterData : Z;
  publishCounterValue : gmap Z Z;
  publishTimestamp : gmap Z timespec;
  measurementsPublisher : Z;
  subscribeCounterValue : gmap Z Z;
  subscribeTimestamp : gmap Z timespec;
  measurementsSubscriber : Z;
  dataModificationTime : timespec;
  dataReceiveTime : timespec
}.

Definition set_running (b : bool) (g : globals) : globals :=
  mk_globals b (pubCounterData g) (repeatedCounterData g) (subCounterData g)
    (publishCounterValue g) (publishTimestamp g) (measurementsPublisher g)
    (subscribeCounterValue g) (subscribeTimestamp g) (measurementsSubscriber g)
    (dataModificationTime g) (dataReceiveTime g).

Definition set_pubCounterData (v : Z) (g : globals) : globals :=
  mk_globals (running g) v (repeatedCounterData g) (subCounterData g)
    (publishCounterValue g) (publishTimestamp g) (measurementsPublisher g)
    (subscribeCounterValue g) (subscribeTimestamp g) (measurementsSubscriber g)
    (dataModificationTime g) (dataReceiveTime g).

Definition set_repeatedCounterData (l : list Z) (g : globals) : globals :=
  mk_globals (running g) (pubCounterData g) l (subCounterData g)
    (publishCounterValue g) (publishTimestamp g) (measurementsPublisher g)
    (subscribeCounterValue g) (subscribeTimestamp g) (measurementsSubscriber g)
    (dataModificationTime g) (dataReceiveTime g).

Definition set_subCounterData (v : Z) (g : globals) : globals :=
  mk_globals (running g) (pubCounterData g) (repeatedCounterData g) v
    (publishCounterValue g) (publishTimestamp g) (measurementsPublisher g)
    (subscribeCounterValue g) (subscribeTimestamp g) (measurementsSubscriber g)
    (dataModificationTime g) (dataReceiveTime g).

Definition set_publish_log (vs : gmap Z Z) (ts : gmap Z timespec) (n : Z) (g : globals) : globals :=
  mk_globals (running g) (pubCounterData g) (repeatedCounterData g) (subCounterData g)
    vs ts n
    (subscribeCounterValue g) (subscribeTimestamp g) (measurementsSubscriber g)
    (dataModificationTime g) (dataReceiveTime g).

Definition set_subscribe_log (vs : gmap Z Z) (ts : gmap Z timespec) (n : Z) (g : globals) : globals :=
  mk_globals (running g) (pubCounterData g) (repeatedCounterData g) (subCounterData g)
    (publishCounterValue g) (publishTimestamp g) (measurementsPublisher g)
    vs ts n
    (dataModificationTime g) (dataReceiveTime g).

Definition set_dataModificationTime (t : timespec) (g : globals) : globals :=
  mk_globals (running g) (pubCounterData g) (repeatedCounterData g) (subCounterData g)
    (publishCounterValue g) (publishTimestamp g) (measurementsPublisher g)
    (subscribeCounterValue g) (subscribeTimestamp g) (measurementsSubscriber g)
    t (dataReceiveTime g).

Definition set_dataReceiveTime (t : timespec) (g : globals) : globals :=
  mk_globals (running g) (pubCounterData g) (repeatedCounterData g) (subCounterData g)
    (publishCounterValue g) (publishTimestamp g) (measurementsPublisher g)
    (subscribeCounterValue g) (subscribeTimestamp g) (measurementsSubscriber g)
    (dataModificationTime g) t.

(** The state the C initialisers and the set-up code of [main] leave: every
    counter cell allocated and zero, both logs empty, [running] true. *)
Definition initial_globals : globals :=
  {| running := true;
     pubCounterData := 0;
     repeatedCounterData := replicate REPEATED_NODECOUNTS 0;
     subCounterData := 0;
     publishCounterValue := ∅;
     publishTimestamp := ∅;
     measurementsPublisher := 0;
     subscribeCounterValue := ∅;
     subscribeTimestamp := ∅;
     measurementsSubscriber := 0;
     dataModificationTime := {| tv_sec := 0; tv_nsec := 0 |};
     dataReceiveTime := {| tv_sec := 0; tv_nsec := 0 |} |}.

(** ** Measurement logs *)

Definition updateMeasurementsPublisher (start_time : timespec) (counterValue : Z)
    (g : globals) : globals :=
  if measurementsPublisher g >=? MAX_MEASUREMENTS then set_running false g
  else
    set_publish_log
      (<[measurementsPublisher g := counterValue]> (publishCounterValue g))
      (<[measurementsPublisher g := start_time]> (publishTimestamp g))
      (wrap_u64 (measurementsPublisher g + 1)) g.

Definition updateMeasurementsSubscriber (receive_time : timespec) (counterValue : Z)
    (g : globals) : globals :=
  if measurementsSubscriber g >=? MAX_MEASUREMENTS then set_running false g
  else
    set_subscribe_log
      (<[measurementsSubscriber g := counterValue]> (subscribeCounterValue g))
      (<[measurementsSubscriber g := receive_time]> (subscribeTimestamp g))
      (wrap_u64 (measurementsSubscriber g + 1)) g.

(** A log that holds exactly [n] entries, the values [arg 0 .. arg (n-1)]
    at the indices [0 .. n-1]. *)
Definition log_holds {A} (m : gmap Z A) (n : nat) (arg : nat -> A) : Prop :=
  size m = n /\
  forall i : Z, m !! i = if decide (0 <= i < Z.of_nat n) then Some (arg (Z.to_nat i)) else None.

(** A series of calls, the [i]-th with the arguments [calls i]. *)
Fixpoint updateMeasurementsPublisher_calls (calls : nat -> timespec * Z) (n : nat)
    (g : globals) : globals :=
  match n with
  | O => g
  | S m =>
      updateMeasurementsPublisher (fst (calls m)) (snd (calls m))
        (updateMeasurementsPublisher_calls calls m g)
  end.

Fixpoint updateMeasurementsSubscriber_calls (calls : nat -> timespec * Z) (n : nat)
    (g : globals) : globals :=
  match n with
  | O => g
  | S m =>
      updateMeasurementsSubscriber (fst (calls m)) (snd (calls m))
        (updateMeasurementsSubscriber_calls calls m g)
  end.

(** The numbers [main] prints to a CSV file at shutdown, with the format
    ["%ld,%ld.%09ld\n"]: one row (counter, seconds, nanoseconds) for each
    index below the count, in index order.  The counter is stored as
    [UA_UInt64] and printed with [%ld], that is, as the [long] with the same
    64 bits.  An element that was never written reads as the zero the
    static array started with. *)
Definition csv_rows (values : gmap Z Z) (stamps : gmap Z timespec) (count : Z)
    : list (Z * Z * Z) :=
  map (fun i : nat =>
         let t := default {| tv_sec := 0; tv_nsec := 0 |} (stamps !! Z.of_nat i) in
         (wrap_s64 (default 0 (values !! Z.of_nat i)), tv_sec t, tv_nsec t))
      (seq 0 (Z.to_nat count)).

Definition publisher_csv_rows (g : globals) : list (Z * Z * Z) :=
  csv_rows (publishCounterValue g) (publishTimestamp g) (measurementsPublisher g).

Definition subscriber_csv_rows (g : globals) : list (Z * Z * Z) :=
  csv_rows (subscribeCounterValue g) (subscribeTimestamp g) (measurementsSubscriber g).

(** ** Publisher thread *)

(** Of the thread arguments only the interval enters the computation; the
    server, the group and the callback are handed through to the library. *)
Record threadArg : Type := mk_threadArg { interval_ms : UA_Double }.

(** The first wake-up: [clock_gettime] returned [now]. *)
Definition publisherETF_first_deadline (cfg : config) (now : timespec) : timespec :=
  nanoSecondFieldConversion
    {| tv_sec := wrap_s64 (tv_sec now + SECONDS_SLEEP);
       tv_nsec := dbl_to_slong
                    (dbl_mul (mul_MILLI_SECONDS (cycleTimeInMsec cfg)) pubWakeupPercentage) |}.

Definition roundOffCycleTime (cfg : config) : Z :=
  dbl_to_uint64
    (dbl_sub (mul_MILLI_SECONDS (cycleTimeInMsec cfg))
             (dbl_mul (mul_MILLI_SECONDS (cycleTimeInMsec cfg)) pubWakeupPercentage)).

(** [((UA_UInt64)tv_sec * SECONDS + (UA_UInt64)tv_nsec) + roundOffCycleTime
     + (UA_UInt64)(qbvOffset * 1000)], every operation in its C type. *)
Definition transmission_time (roundOff qbv : Z) (next : timespec) : Z :=
  let sec_ns := wrap_u64 (wrap_u64 (wrap_u64 (wrap_u64 (tv_sec next) * 1000) * 1000) * 1000) in
  let now_ns := wrap_u64 (sec_ns + wrap_u64 (tv_nsec next)) in
  wrap_u64 (wrap_u64 (now_ns + roundOff) + wrap_u64 (wrap_s32 (qbv * 1000))).

(** The [while (running)] loop.  [obs] lists what the successive evaluations
    of the loop condition read from [running], which the signal handler and
    the user thread write.  Each iteration is recorded as the deadline
    passed to [clock_nanosleep] and the transmission time published. *)
Fixpoint publisherETF_loop (interval_ns roundOff qbv : Z) (obs : list bool)
    (next : timespec) : list (timespec * Z) :=
  match obs with
  | true :: obs' =>
      (next, transmission_time roundOff qbv next)
        :: publisherETF_loop interval_ns roundOff qbv obs'
             (advance_deadline (wrap_s64 interval_ns) next)
  | _ => []
  end.

Definition publisherETF (cfg : config) (arg : threadArg) (now : timespec)
    (obs : list bool) : list (timespec * Z) :=
  let interval_ns := dbl_to_uint64 (mul_MILLI_SECONDS (interval_ms arg)) in
  publisherETF_loop interval_ns (roundOffCycleTime cfg) (qbvOffset cfg) obs
    (publisherETF_first_deadline cfg now).

(** The transmission timestamp in the words of the specification's
    testable property, [T + P + (P - P * fraction) + offset], the fraction
    given as the ratio [num / den] so that the arithmetic is on integers. *)
Definition spec_transmission_timestamp (T P num den offset : Z) : Z :=
  T + P + (P - P * num / den) + offset.


(** ** Subscriber thread *)

Definition subscriber_first_deadline (now : timespec) : timespec :=
  nanoSecondFieldConversion
    {| tv_sec := wrap_s64 (tv_sec now + SECONDS_SLEEP);
       tv_nsec := dbl_to_slong subWakeupPercentage |}.

Fixpoint subscriber_loop (subInterval_ns : Z) (obs : list bool) (next : timespec)
    : list timespec :=
  match obs with
  | true :: obs' =>
      next :: subscriber_loop subInterval_ns obs'
                (advance_deadline (wrap_s64 subInterval_ns) next)
  | _ => []
  end.

Definition subscriber (arg : threadArg) (now : timespec) (obs : list bool) : list timespec :=
  let subInterval_ns := dbl_to_uint64 (mul_MILLI_SECONDS (interval_ms arg)) in
  subscriber_loop subInterval_ns obs (subscriber_first_deadline now).

(** ** User application thread *)

Definition userApplicationPubSub_first_deadline (cfg : config) (now : timespec) : timespec :=
  nanoSecondFieldConversion
    {| tv_sec := wrap_s64 (tv_sec now + SECONDS_SLEEP);
       tv_nsec := dbl_to_slong
                    (dbl_mul (mul_MILLI_SECONDS (cycleTimeInMsec cfg)) userAppWakeupPercentage) |}.

(** The statements between the first deadline and the loop:
    [*pubCounterData = 0] and the [for] loop that stores
    [repeatedCounterValue = 10] in every repeated cell. *)
Definition userApplicationPubSub_reset (g : globals) : globals :=
  let repeatedCounterValue := 10 in
  fold_left
    (fun g iterator =>
       set_repeatedCounterData (<[iterator := repeatedCounterValue]> (repeatedCounterData g)) g)
    (seq 0 REPEATED_NODECOUNTS)
    (set_pubCounterData 0 g).

(** What reaches one loop iteration from outside the thread: whether the
    signal handler has run, a value the receiver has stored in
    [*subCounterData] since the last iteration, and the two clock readings. *)
Record user_env : Type := mk_user_env {
  ue_signal : bool;
  ue_received : option Z;
  ue_modification_time : timespec;
  ue_receive_time : timespec
}.

Definition user_env_apply (e : user_env) (g : globals) : globals :=
  let g1 := if ue_signal e then set_running false g else g in
  match ue_received e with
  | Some v => set_subCounterData v g1
  | None => g1
  end.

(** One execution of the loop body after [clock_nanosleep] has returned. *)
Definition userApplicationPubSub_body (cfg : config) (e : user_env)
    (s : timespec * globals) : timespec * globals :=
  let next := fst s in
  let g := snd s in
  let g := set_pubCounterData (wrap_u64 (pubCounterData g + 1)) g in
  let g :=
    fold_left
      (fun g iterator =>
         set_repeatedCounterData
           (alter (fun v => wrap_u64 (v + 1)) iterator (repeatedCounterData g)) g)
      (seq 0 REPEATED_NODECOUNTS) g in
  let g := set_dataModificationTime (ue_modification_time e) g in
  let g := set_dataReceiveTime (ue_receive_time e) g in
  let g :=
    if enableCsvLog cfg then
      let g := updateMeasurementsPublisher (dataModificationTime g) (pubCounterData g) g in
      if subCounterData g >? 0
      then updateMeasurementsSubscriber (dataReceiveTime g) (subCounterData g) g
      else g
    else g in
  (advance_deadline (dbl_to_slong (mul_MILLI_SECONDS (cycleTimeInMsec cfg))) next, g).

(** [n = length envs] iterations of the body, whatever [running] says. *)
Fixpoint userApplicationPubSub_iterations (cfg : config) (envs : list user_env)
    (s : timespec * globals) : timespec * globals :=
  match envs with
  | [] => s
  | e :: envs' =>
      userApplicationPubSub_iterations cfg envs'
        (userApplicationPubSub_body cfg e (fst s, user_env_apply e (snd s)))
  end.

(** The [while (running)] loop; the result counts the iterations made. *)
Fixpoint userApplicationPubSub_loop (cfg : config) (envs : list user_env)
    (s : timespec * globals) : nat * (timespec * globals) :=
  match envs with
  | [] => (O, s)
  | e :: envs' =>
      let g := user_env_apply e (snd s) in
      if running g then
        let r := userApplicationPubSub_loop cfg envs'
                   (userApplicationPubSub_body cfg e (fst s, g)) in
        (S (fst r), snd r)
      else (O, (fst s, g))
  end.

Definition userApplicationPubSub (cfg : config) (now : timespec) (envs : list user_env)
    (g : globals) : nat * (timespec * globals) :=
  userApplicationPubSub_loop cfg envs
    (userApplicationPubSub_first_deadline cfg now, userApplicationPubSub_reset g).

(** ** Start-up: [main]

    [getopt_long_only] is the C library's; the model starts from the
    sequence of options it returns, each with its argument already
    converted ([atof], [atoi]). *)

Inductive cli_option : Type :=
| opt_interface (optarg : string)
| opt_cycleTimeInMsec (value : UA_Double)
| opt_socketPriority (value : Z)
| opt_pubPriority (value : Z)
| opt_subPriority (value : Z)
| opt_userAppPriority (value : Z)
| opt_pubCore (value : Z)
| opt_subCore (value : Z)
| opt_userAppCore (value : Z)
| opt_pubMacAddress (optarg : string)
| opt_subMacAddress (optarg : string)
| opt_qbvOffset (value : Z)
| opt_disableSoTxtime
| opt_enableCsvLog
| opt_help
| opt_unrecognised.

Definition set_interface v (c : config) : config :=
  mk_config v (cycleTimeInMsec c) (socketPriority c) (pubPriority c) (subPriority c)
    (userAppPriority c) (pubCore c) (subCore c) (userAppCore c) (pubMacAddress c)
    (subMacAddress c) (qbvOffset c) (disableSoTxtime c) (enableCsvLog c).

Definition set_cycleTimeInMsec v (c : config) : config :=
  mk_config (interface c) v (socketPriority c) (pubPriority c) (subPriority c)
    (userAppPriority c) (pubCore c) (subCore c) (userAppCore c) (pubMacAddress c)
    (subMacAddress c) (qbvOffset c) (disableSoTxtime c) (enableCsvLog c).

Definition set_socketPriority v (c : config) : config :=
  mk_config (interface c) (cycleTimeInMsec c) v (pubPriority c) (subPriority c)
    (userAppPriority c) (pubCore c) (subCore c) (userAppCore c) (pubMacAddress c)
    (subMacAddress c) (qbvOffset c) (disableSoTxtime c) (enableCsvLog c).

Definition set_pubPriority v (c : config) : config :=
  mk_config (interface c) (cycleTimeInMsec c) (socketPriority c) v (subPriority c)
    (userAppPriority c) (pubCore c) (subCore c) (userAppCore c) (pubMacAddress c)
    (subMacAddress c) (qbvOffset c) (disableSoTxtime c) (enableCsvLog c).

Definition set_subPriority v (c : config) : config :=
  mk_config (interface c) (cycleTimeInMsec c) (socketPriority c) (pubPriority c) v
    (userAppPriority c) (pubCore c) (subCore c) (userAppCore c) (pubMacAddress c)
    (subMacAddress c) (qbvOffset c) (disableSoTxtime c) (enableCsvLog c).

Definition set_userAppPriority v (c : config) : config :=
  mk_config (interface c) (cycleTimeInMsec c) (socketPriority c) (pubPriority c)
    (subPriority c) v (pubCore c) (subCore c) (userAppCore c) (pubMacAddress c)
    (subMacAddress c) (qbvOffset c) (disableSoTxtime c) (enableCsvLog c).

Definition set_pubCore v (c : config) : config :=
  mk_config (interface c) (cycleTimeInMsec c) (socketPriority c) (pubPriority c)
    (subPriority c) (userAppPriority c) v (subCore c) (userAppCore c) (pubMacAddress
    c) (subMacAddress c) (qbvOffset c) (disableSoTxtime c) (enableCsvLog c).

Definition set_subCore v (c : config) : config :=
  mk_config (interface c) (cycleTimeInMsec c) (socketPriority c) (pubPriority c)
    (subPriority c) (userAppPriority c) (pubCore c) v (userAppCore c) (pubMacAddress
    c) (subMacAddress c) (qbvOffset c) (disableSoTxtime c) (enableCsvLog c).

Definition set_userAppCore v (c : config) : config :=
  mk_config (interface c) (cycleTimeInMsec c) (socketPriority c) (pubPriority c)
    (subPriority c) (userAppPriority c) (pubCore c) (subCore c) v (pubMacAddress c)
    (subMacAddress c) (qbvOffset c) (disableSoTxtime c) (enableCsvLog c).

Definition set_pubMacAddress v (c : config) : config :=
  mk_config (interface c) (cycleTimeInMsec c) (socketPriority c) (pubPriority c)
    (subPriority c) (userAppPriority c) (pubCore c) (subCore c) (userAppCore c) v
    (subMacAddress c) (qbvOffset c) (disableSoTxtime c) (enableCsvLog c).

Definition set_subMacAddress v (c : config) : config :=
  mk_config (interface c) (cycleTimeInMsec c) (socketPriority c) (pubPriority c)
    (subPriority c) (userAppPriority c) (pubCore c) (subCore c) (userAppCore c)
    (pubMacAddress c) v (qbvOffset c) (disableSoTxtime c) (enableCsvLog c).

Definition set_qbvOffset v (c : config) : config :=
  mk_config (interface c) (cycleTimeInMsec c) (socketPriority c) (pubPriority c)
    (subPriority c) (userAppPriority c) (pubCore c) (subCore c) (userAppCore c)
    (pubMacAddress c) (subMacAddress c) v (disableSoTxtime c) (enableCsvLog c).

Definition set_disableSoTxtime v (c : config) : config :=
  mk_config (interface c) (cycleTimeInMsec c) (socketPriority c) (pubPriority c)
    (subPriority c) (userAppPriority c) (pubCore c) (subCore c) (userAppCore c)
    (pubMacAddress c) (subMacAddress c) (qbvOffset c) v (enableCsvLog c).

Definition set_enableCsvLog v (c : config) : config :=
  mk_config (interface c) (cycleTimeInMsec c) (socketPriority c) (pubPriority c)
    (subPriority c) (userAppPriority c) (pubCore c) (subCore c) (userAppCore c)
    (pubMacAddress c) (subMacAddress c) (qbvOffset c) (disableSoTxtime c) v.

(** The option loop; [None] when [-help] made [main] return. *)
Fixpoint process_options (opts : list cli_option) (c : config) : option config :=
  match opts with
  | [] => Some c
  | o :: opts' =>
      match o with
      | opt_interface a => process_options opts' (set_interface (Some a) c)
      | opt_cycleTimeInMsec v => process_options opts' (set_cycleTimeInMsec v c)
      | opt_socketPriority v => process_options opts' (set_socketPriority v c)
      | opt_pubPriority v => process_options opts' (set_pubPriority v c)
      | opt_subPriority v => process_options opts' (set_subPriority v c)
      | opt_userAppPriority v => process_options opts' (set_userAppPriority v c)
      | opt_pubCore v => process_options opts' (set_pubCore v c)
      | opt_subCore v => process_options opts' (set_subCore v c)
      | opt_userAppCore v => process_options opts' (set_userAppCore v c)
      | opt_pubMacAddress a => process_options opts' (set_pubMacAddress a c)
      | opt_subMacAddress a => process_options opts' (set_subMacAddress a c)
      | opt_qbvOffset v => process_options opts' (set_qbvOffset v c)
      | opt_disableSoTxtime => process_options opts' (set_disableSoTxtime false c)
      | opt_enableCsvLog => process_options opts' (set_enableCsvLog true c)
      | opt_help => None
      | opt_unrecognised => process_options opts' c
      end
  end.

Inductive thread_routine : Type :=
| routine_publisherETF
| routine_subscriber
| routine_userApplicationPubSub.

(** What [main] does that can be seen from outside, in order.  The
    publisher and subscriber threads are created by
    [addPubSubApplicationCallback], which the library calls while the writer
    group and the reader group are set up. *)
Inductive main_event : Type :=
| ev_log_error (message : string)
| ev_usage
| ev_fopen (file : string)
| ev_server_delete
| ev_addServerNodes
| ev_setup_writer_group
| ev_setup_reader_group
| ev_pthread_create (routine : thread_routine)
| ev_log_warning (message : string)
| ev_log_info (message : string)
| ev_server_run
| ev_pthread_join (routine : thread_routine)
| ev_write_csv (file : string)
| ev_cleanup.

Definition starts_role_thread (e : main_event) : bool :=
  match e with
  | ev_setup_writer_group | ev_setup_reader_group | ev_pthread_create _ => true
  | _ => false
  end.

(** Return values of the three pthread calls of [threadCreation]. *)
Record pthread_results : Type := mk_pthread_results {
  r_setschedparam : Z;
  r_setaffinity_np : Z;
  r_create : Z
}.

(** [threadCreation]: [inl 1] is [exit(1)]. *)
Definition threadCreation (routine : thread_routine) (r : pthread_results)
    : Z + list main_event :=
  if negb (r_setschedparam r =? 0) then inl 1
  else if negb (r_setaffinity_np r =? 0) then inl 1
  else if negb (r_create r =? 0) then inr [ev_log_warning "Cannot create thread"]
  else inr [ev_pthread_create routine].

Record main_env : Type := mk_main_env {
  env_transport_layers_allocated : bool;
  env_user_thread : pthread_results;
  env_server_run : Z;
  env_join : Z
}.

Definition EXIT_FAILURE : Z := 1.
Definition UA_STATUSCODE_GOOD : Z := 0.

(** [main]: the exit status and the events up to it, on the runs where the
    library's set-up of the writer group and of the reader group returns to
    [main]; [main_with_callbacks] below adds the calls of
    [addPubSubApplicationCallback] made during that set-up, which can end
    the process. *)
Definition main (opts : list cli_option) (env : main_env) : Z * list main_event :=
  match process_options opts default_config with
  | None => (-1, [ev_usage])
  | Some c =>
      match interface c with
      | None => (-1, [ev_log_error "Need a network interface to run"; ev_usage])
      | Some _ =>
          if dbl_ltb (cycleTimeInMsec c) (dbl_lit 125 1000)
          then (-1, [ev_log_error "Bad cycle time"; ev_usage])
          else
            let files :=
              if enableCsvLog c
              then [ev_fopen "publisher_T1.csv"; ev_fopen "subscriber_T8.csv"] else [] in
            if negb (env_transport_layers_allocated env)
            then (EXIT_FAILURE, files ++ [ev_server_delete])
            else
              let setup :=
                files ++ [ev_addServerNodes; ev_setup_writer_group; ev_setup_reader_group] in
              match threadCreation routine_userApplicationPubSub (env_user_thread env) with
              | inl status => (status, setup)
              | inr created =>
                  let retval := Z.lor UA_STATUSCODE_GOOD (env_server_run env) in
                  let joined :=
                    ev_pthread_join routine_userApplicationPubSub
                      :: (if negb (env_join env =? 0)
                          then [ev_log_info "Pthread Join Failed for User thread"] else []) in
                  let csv :=
                    if enableCsvLog c
                    then [ev_write_csv "publisher_T1.csv"; ev_write_csv "subscriber_T8.csv"]
                    else [] in
                  (wrap_s32 retval,
                   setup ++ created ++ [ev_server_run] ++ joined ++ csv ++ [ev_cleanup])
              end
      end
  end.


(** [addPubSubApplicationCallback]: the publisher thread when the identifier
    is that of the writer group, the subscriber thread for any other; the
    status returned is always good.  [inl] is the [exit] of
    [threadCreation]. *)
Definition addPubSubApplicationCallback (identifier_is_writerGroupIdent : bool)
    (r : pthread_results) : Z + Z * list main_event :=
  match threadCreation
          (if identifier_is_writerGroupIdent then routine_publisherETF
           else routine_subscriber) r with
  | inl status => inl status
  | inr created => inr (UA_STATUSCODE_GOOD, created)
  end.

(** The calls of [addPubSubApplicationCallback] the library makes during one
    set-up step, in order, each with the outcome of the identifier
    comparison and of the pthread calls: the exit status if one of them
    ends the process, and the events up to there. *)
Fixpoint library_callbacks (calls : list (bool * pthread_results))
    : option Z * list main_event :=
  match calls with
  | [] => (None, [])
  | call :: rest =>
      match addPubSubApplicationCallback (fst call) (snd call) with
      | inl status => (Some status, [])
      | inr (_, created) =>
          (fst (library_callbacks rest), created ++ snd (library_callbacks rest))
      end
  end.

Record callback_env : Type := mk_callback_env {
  env_writer_group_callbacks : list (bool * pthread_results);
  env_reader_group_callbacks : list (bool * pthread_results)
}.

(** [main] together with the callbacks run by the library while the writer
    group (lines 1218-1223) and the reader group (lines 1247-1251) are set
    up. *)
Definition main_with_callbacks (opts : list cli_option) (env : main_env)
    (cb : callback_env) : Z * list main_event :=
  match process_options opts default_config with
  | None => (-1, [ev_usage])
  | Some c =>
      match interface c with
      | None => (-1, [ev_log_error "Need a network interface to run"; ev_usage])
      | Some _ =>
          if dbl_ltb (cycleTimeInMsec c) (dbl_lit 125 1000)
          then (-1, [ev_log_error "Bad cycle time"; ev_usage])
          else
            let files :=
              if enableCsvLog c
              then [ev_fopen "publisher_T1.csv"; ev_fopen "subscriber_T8.csv"] else [] in
            if negb (env_transport_layers_allocated env)
            then (EXIT_FAILURE, files ++ [ev_server_delete])
            else
              let writer := library_callbacks (env_writer_group_callbacks cb) in
              let reader := library_callbacks (env_reader_group_callbacks cb) in
              let setup_writer :=
                files ++ [ev_addServerNodes; ev_setup_writer_group] ++ snd writer in
              match fst writer with
              | Some status => (status, setup_writer)
              | None =>
                  let setup := setup_writer ++ [ev_setup_reader_group] ++ snd reader in
                  match fst reader with
                  | Some status => (status, setup)
                  | None =>
                      match threadCreation routine_userApplicationPubSub
                              (env_user_thread env) with
                      | inl status => (status, setup)
                      | inr created =>
                          let retval := Z.lor UA_STATUSCODE_GOOD (env_server_run env) in
                          let joined :=
                            ev_pthread_join routine_userApplicationPubSub
                              :: (if negb (env_join env =? 0)
                                  then [ev_log_info "Pthread Join Failed for User thread"]
                                  else []) in
                          let csv :=
                            if enableCsvLog c
                            then [ev_write_csv "publisher_T1.csv";
                                  ev_write_csv "subscriber_T8.csv"]
                            else [] in
                          (wrap_s32 retval,
                           setup ++ created ++ [ev_server_run] ++ joined ++ csv ++ [ev_cleanup])
                      end
                  end
              end
      end
  end.

(** * Properties *)

(** ** Machine integers *)

Lemma wrap_s64_id z : is_s64 z -> wrap_s64 z = z.
Proof.
  unfold is_s64, wrap_s64. intros H.
  rewrite Z.mod_small by lia. lia.
Qed.

Lemma wrap_u64_id z : is_u64 z -> wrap_u64 z = z.
Proof. unfold is_u64, wrap_u64. intros H. apply Z.mod_small. lia. Qed.

Lemma wrap_s64_range z : is_s64 (wrap_s64 z).
Proof.
  unfold is_s64, wrap_s64.
  pose proof (Z.mod_pos_bound (z + 2 ^ 63) (2 ^ 64) ltac:(lia)). lia.
Qed.

Lemma wrap_u64_range z : is_u64 (wrap_u64 z).
Proof. unfold is_u64, wrap_u64. apply Z.mod_pos_bound. lia. Qed.

(** Wrapping changes a value by a multiple of [2^64]. *)
Lemma wrap_s64_cong z : exists q, wrap_s64 z = z + q * 2 ^ 64.
Proof.
  exists (- ((z + 2 ^ 63) / 2 ^ 64)). unfold wrap_s64.
  pose proof (Z.div_mod (z + 2 ^ 63) (2 ^ 64) ltac:(lia)). lia.
Qed.

Lemma wrap_u64_cong z : exists q, wrap_u64 z = z + q * 2 ^ 64.
Proof.
  exists (- (z / 2 ^ 64)). unfold wrap_u64.
  pose proof (Z.div_mod z (2 ^ 64) ltac:(lia)). lia.
Qed.

Lemma wrap_u64_eq_iff a b : wrap_u64 a = wrap_u64 b <-> exists q, a = b + q * 2 ^ 64.
Proof.
  unfold wrap_u64. split.
  - intros H. exists (a / 2 ^ 64 - b / 2 ^ 64).
    pose proof (Z.div_mod a (2 ^ 64) ltac:(lia)).
    pose proof (Z.div_mod b (2 ^ 64) ltac:(lia)). lia.
  - intros [q ->]. apply Z.mod_add. lia.
Qed.

(** ** Time arithmetic *)

Lemma nanoSecondFieldConversion_loop_small fuel t :
  tv_nsec t <= SECONDS - 1 -> nanoSecondFieldConversion_loop fuel t = Some t.
Proof.
  intros H. destruct fuel; simpl;
    destruct (Z.gtb_spec (tv_nsec t) (SECONDS - 1)); (lia || reflexivity).
Qed.

Lemma nanoSecondFieldConversion_loop_step fuel t :
  SECONDS - 1 < tv_nsec t ->
  nanoSecondFieldConversion_loop (S fuel) t =
  nanoSecondFieldConversion_loop fuel
    {| tv_sec := wrap_s64 (tv_sec t + SECONDS_INCREMENT);
       tv_nsec := wrap_s64 (tv_nsec t - SECONDS) |}.
Proof.
  intros H. simpl. destruct (Z.gtb_spec (tv_nsec t) (SECONDS - 1)); [reflexivity | lia].
Qed.

Lemma wrap_s64_add_l a b : wrap_s64 (wrap_s64 a + b) = wrap_s64 (a + b).
Proof.
  unfold wrap_s64. f_equal.
  replace ((a + 2 ^ 63) mod 2 ^ 64 - 2 ^ 63 + b + 2 ^ 63)
    with ((a + 2 ^ 63) mod 2 ^ 64 + b) by lia.
  rewrite Zplus_mod_idemp_l. f_equal. lia.
Qed.

(** The loop, characterised for every bound that is large enough: it
    returns, the nanosecond field is reduced modulo one second and the
    quotient is carried into the seconds field. *)
Lemma nanoSecondFieldConversion_loop_spec fuel : forall t,
  valid_timespec t -> 0 <= tv_nsec t -> tv_nsec t / SECONDS <= Z.of_nat fuel ->
  nanoSecondFieldConversion_loop fuel t =
  Some {| tv_sec := wrap_s64 (tv_sec t + tv_nsec t / SECONDS);
          tv_nsec := tv_nsec t mod SECONDS |}.
Proof.
  induction fuel as [|fuel IH]; intros [s n] [Hs Hn] H0 Hf; simpl tv_sec in *; simpl tv_nsec in *.
  - assert (Hq : n / SECONDS = 0).
    { pose proof (Z.div_pos n SECONDS H0 ltac:(reflexivity)). lia. }
    pose proof Hq as Hlt. apply Z.div_small_iff in Hlt; [|discriminate].
    destruct Hlt as [Hlt|Hlt]; [|unfold SECONDS in Hlt; lia].
    rewrite nanoSecondFieldConversion_loop_small by (simpl; lia).
    rewrite Hq, Z.add_0_r, Z.mod_small, wrap_s64_id by assumption. reflexivity.
  - destruct (Z_lt_le_dec n SECONDS) as [Hlt|Hge].
    + rewrite nanoSecondFieldConversion_loop_small by (simpl; lia).
      rewrite Z.div_small, Z.add_0_r, Z.mod_small, wrap_s64_id by (assumption || lia).
      reflexivity.
    + rewrite nanoSecondFieldConversion_loop_step by (simpl; lia). simpl tv_sec; simpl tv_nsec.
      assert (Hw : wrap_s64 (n - SECONDS) = n - SECONDS).
      { apply wrap_s64_id. unfold is_s64, SECONDS in *. lia. }
      assert (Hd : (n - SECONDS) / SECONDS = n / SECONDS - 1).
      { replace (n - SECONDS) with (n + (-1) * SECONDS) by lia.
        rewrite Z.div_add by discriminate. lia. }
      assert (Hm : (n - SECONDS) mod SECONDS = n mod SECONDS).
      { replace (n - SECONDS) with (n + (-1) * SECONDS) by lia.
        apply Z.mod_add. discriminate. }
      rewrite Hw, IH; simpl tv_sec; simpl tv_nsec.
      * rewrite Hd, Hm, wrap_s64_add_l. do 3 f_equal. unfold SECONDS_INCREMENT. lia.
      * split; simpl; [apply wrap_s64_range | unfold is_s64, SECONDS in *; lia].
      * unfold SECONDS in *. lia.
      * lia.
Qed.

Lemma nanoSecondFieldConversion_loop_terminates t :
  valid_timespec t ->
  nanoSecondFieldConversion_loop (nanoSecondFieldConversion_bound t) t =
  Some (nanoSecondFieldConversion t).
Proof.
  intros Hv. unfold nanoSecondFieldConversion.
  destruct (Z_lt_le_dec (tv_nsec t) 0) as [Hneg|Hpos].
  - rewrite nanoSecondFieldConversion_loop_small by (unfold SECONDS; lia). reflexivity.
  - rewrite nanoSecondFieldConversion_loop_spec; [reflexivity | assumption | assumption |].
    unfold nanoSecondFieldConversion_bound. rewrite Z2Nat.id; [lia|].
    apply Z.div_pos; [assumption | reflexivity].
Qed.

(** A run of the loop that returns at all returns the same value whatever
    bound it was given. *)
Lemma nanoSecondFieldConversion_loop_bound_irrelevant fuel : forall fuel' t r r',
  nanoSecondFieldConversion_loop fuel t = Some r ->
  nanoSecondFieldConversion_loop fuel' t = Some r' -> r = r'.
Proof.
  induction fuel as [|fuel IH]; intros fuel' t r r'; simpl;
    destruct (Z.gtb_spec (tv_nsec t) (SECONDS - 1)) as [Hgt|Hle]; try discriminate.
  - rewrite nanoSecondFieldConversion_loop_small by lia. congruence.
  - destruct fuel' as [|fuel'].
    + simpl. destruct (Z.gtb_spec (tv_nsec t) (SECONDS - 1)); [discriminate | lia].
    + rewrite nanoSecondFieldConversion_loop_step by lia. apply IH.
  - rewrite nanoSecondFieldConversion_loop_small by lia. congruence.
Qed.

Lemma nanoSecondFieldConversion_spec t :
  valid_timespec t -> 0 <= tv_nsec t ->
  nanoSecondFieldConversion t =
  {| tv_sec := wrap_s64 (tv_sec t + tv_nsec t / SECONDS);
     tv_nsec := tv_nsec t mod SECONDS |}.
Proof.
  intros Hv H0. unfold nanoSecondFieldConversion.
  rewrite nanoSecondFieldConversion_loop_spec; [reflexivity | assumption | assumption |].
  unfold nanoSecondFieldConversion_bound. rewrite Z2Nat.id; [lia|].
  apply Z.div_pos; [assumption | reflexivity].
Qed.

Lemma nanoSecondFieldConversion_small t :
  tv_nsec t <= SECONDS - 1 -> nanoSecondFieldConversion t = t.
Proof.
  intros H. unfold nanoSecondFieldConversion.
  rewrite nanoSecondFieldConversion_loop_small by assumption. reflexivity.
Qed.

(** C1.  For a deadline whose nanosecond field [n] is not negative,
    [nanoSecondFieldConversion] leaves [0 <= n' < 10^9] with
    [n' = n mod 10^9], and carries [floor (n / 10^9)] into the seconds: the
    new seconds field is [seconds + floor (n / 10^9)] in the arithmetic of
    [time_t], which is that sum itself whenever [time_t] can hold it.  When
    already [n < 10^9] the deadline is returned unchanged. *)
Theorem nanoSecondFieldConversion_normalizes (t : timespec) :
  valid_timespec t -> 0 <= tv_nsec t ->
  let r := nanoSecondFieldConversion t in
  0 <= tv_nsec r < 10 ^ 9 /\
  tv_nsec r = tv_nsec t mod 10 ^ 9 /\
  tv_sec r = wrap_s64 (tv_sec t + tv_nsec t / 10 ^ 9) /\
  (tv_sec t + tv_nsec t / 10 ^ 9 < 2 ^ 63 -> tv_sec r = tv_sec t + tv_nsec t / 10 ^ 9) /\
  (tv_nsec t < 10 ^ 9 -> r = t).
Proof.
  intros Hv H0 r. unfold r. rewrite nanoSecondFieldConversion_spec by assumption.
  change SECONDS with (10 ^ 9). simpl tv_sec; simpl tv_nsec.
  pose proof (Z.mod_pos_bound (tv_nsec t) (10 ^ 9) ltac:(reflexivity)) as Hm.
  pose proof (Z.div_pos (tv_nsec t) (10 ^ 9) H0 ltac:(reflexivity)) as Hd.
  destruct Hv as [Hs Hn]. repeat split; try lia.
  - intros Hfit. apply wrap_s64_id. unfold is_s64 in *. lia.
  - intros Hlt. rewrite Z.div_small, Z.add_0_r, Z.mod_small, wrap_s64_id by (assumption || lia).
    destruct t; reflexivity.
Qed.

Lemma nanoSecondFieldConversion_normalizes_witness :
  let t := {| tv_sec := 1700000000; tv_nsec := 2500000123 |} in
  let r := nanoSecondFieldConversion t in
  0 <= tv_nsec r < 10 ^ 9 /\
  tv_nsec r = tv_nsec t mod 10 ^ 9 /\
  tv_sec r = wrap_s64 (tv_sec t + tv_nsec t / 10 ^ 9) /\
  (tv_sec t + tv_nsec t / 10 ^ 9 < 2 ^ 63 -> tv_sec r = tv_sec t + tv_nsec t / 10 ^ 9) /\
  (tv_nsec t < 10 ^ 9 -> r = t).
Proof.
  apply (nanoSecondFieldConversion_normalizes {| tv_sec := 1700000000; tv_nsec := 2500000123 |}).
  - split; unfold is_s64; simpl; lia.
  - simpl; lia.
Defined.

Example nanoSecondFieldConversion_carry_two :
  nanoSecondFieldConversion {| tv_sec := 1700000000; tv_nsec := 2500000123 |} =
  {| tv_sec := 1700000002; tv_nsec := 500000123 |}.
Proof. reflexivity. Qed.

(** C9.  A negative nanosecond field fails the loop test at once: seconds
    and nanoseconds are returned as they were, so the result is still
    outside [0 <= n < 10^9]. *)
Theorem nanoSecondFieldConversion_negative (t : timespec) :
  tv_nsec t < 0 ->
  nanoSecondFieldConversion t = t /\
  tv_sec (nanoSecondFieldConversion t) = tv_sec t /\
  tv_nsec (nanoSecondFieldConversion t) = tv_nsec t /\
  ~ (0 <= tv_nsec (nanoSecondFieldConversion t) < 10 ^ 9).
Proof.
  intros Hneg. rewrite nanoSecondFieldConversion_small by (unfold SECONDS; lia).
  repeat split; lia.
Qed.

Lemma nanoSecondFieldConversion_negative_witness :
  let t := {| tv_sec := 1700000000; tv_nsec := -1 |} in
  nanoSecondFieldConversion t = t /\
  tv_sec (nanoSecondFieldConversion t) = tv_sec t /\
  tv_nsec (nanoSecondFieldConversion t) = tv_nsec t /\
  ~ (0 <= tv_nsec (nanoSecondFieldConversion t) < 10 ^ 9).
Proof.
  apply (nanoSecondFieldConversion_negative {| tv_sec := 1700000000; tv_nsec := -1 |}).
  simpl; lia.
Defined.

Lemma nanoSecondFieldConversion_valid t :
  valid_timespec t -> valid_timespec (nanoSecondFieldConversion t).
Proof.
  intros Hv. destruct (Z_lt_le_dec (tv_nsec t) 0) as [Hneg|Hpos].
  - rewrite nanoSecondFieldConversion_small by (unfold SECONDS; lia). assumption.
  - rewrite nanoSecondFieldConversion_spec by assumption. split; simpl.
    + apply wrap_s64_range.
    + pose proof (Z.mod_pos_bound (tv_nsec t) SECONDS ltac:(reflexivity)).
      unfold is_s64, SECONDS in *. lia.
Qed.

(** Read as an unsigned 64-bit count of nanoseconds, as [publisherETF]
    reads it, a deadline is not changed by the normalisation. *)
Lemma nanoSecondFieldConversion_ns_u64 t :
  valid_timespec t ->
  wrap_u64 (timespec_ns (nanoSecondFieldConversion t)) = wrap_u64 (timespec_ns t).
Proof.
  intros Hv. destruct (Z_lt_le_dec (tv_nsec t) 0) as [Hneg|Hpos].
  - rewrite nanoSecondFieldConversion_small by (unfold SECONDS; lia). reflexivity.
  - rewrite nanoSecondFieldConversion_spec by assumption.
    destruct (wrap_s64_cong (tv_sec t + tv_nsec t / SECONDS)) as [c Hc].
    apply wrap_u64_eq_iff. exists (c * SECONDS).
    unfold timespec_ns; simpl. rewrite Hc.
    pose proof (Z.div_mod (tv_nsec t) SECONDS ltac:(discriminate)). nia.
Qed.

(** Without overflow of the seconds the instant is the same integer, and
    the result is normalised. *)
Lemma nanoSecondFieldConversion_ns_exact t :
  valid_timespec t -> 0 <= tv_nsec t -> tv_sec t + tv_nsec t / SECONDS < 2 ^ 63 ->
  timespec_ns (nanoSecondFieldConversion t) = timespec_ns t /\
  0 <= tv_nsec (nanoSecondFieldConversion t) < SECONDS.
Proof.
  intros [Hs Hn] H0 Hfit. rewrite nanoSecondFieldConversion_spec by (assumption || (split; assumption)).
  rewrite wrap_s64_id.
  - unfold timespec_ns; simpl. split.
    + pose proof (Z.div_mod (tv_nsec t) SECONDS ltac:(discriminate)). nia.
    + apply Z.mod_pos_bound. reflexivity.
  - pose proof (Z.div_pos (tv_nsec t) SECONDS H0 ltac:(reflexivity)).
    unfold is_s64 in *. lia.
Qed.

(** A normalised deadline is determined by the instant it denotes. *)
Lemma timespec_ns_normalised t x :
  timespec_ns t = x -> 0 <= tv_nsec t < SECONDS ->
  tv_sec t = x / SECONDS /\ tv_nsec t = x mod SECONDS.
Proof.
  unfold timespec_ns. intros <- Hn. split.
  - rewrite (Z.add_comm (tv_sec t * SECONDS)), Z.div_add by discriminate.
    rewrite Z.div_small by assumption. reflexivity.
  - rewrite (Z.add_comm (tv_sec t * SECONDS)), Z.mod_add by discriminate.
    symmetry. apply Z.mod_small. assumption.
Qed.

Lemma advance_deadline_valid d t : valid_timespec t -> valid_timespec (advance_deadline d t).
Proof.
  intros [Hs Hn]. apply nanoSecondFieldConversion_valid. split; simpl.
  - assumption.
  - apply wrap_s64_range.
Qed.

Lemma advance_deadline_ns_u64 d t :
  valid_timespec t ->
  wrap_u64 (timespec_ns (advance_deadline (wrap_s64 d) t)) = wrap_u64 (timespec_ns t + d).
Proof.
  intros [Hs Hn]. unfold advance_deadline.
  rewrite nanoSecondFieldConversion_ns_u64 by (split; simpl; [assumption | apply wrap_s64_range]).
  destruct (wrap_s64_cong d) as [c Hc].
  destruct (wrap_s64_cong (tv_nsec t + wrap_s64 d)) as [c' Hc'].
  apply wrap_u64_eq_iff. exists (c + c'). unfold timespec_ns; simpl. lia.
Qed.

Lemma advance_deadline_ns_exact d t :
  valid_timespec t -> 0 <= tv_nsec t < SECONDS -> 0 <= d <= 2 ^ 63 - SECONDS ->
  tv_sec t + (tv_nsec t + d) / SECONDS < 2 ^ 63 ->
  timespec_ns (advance_deadline (wrap_s64 d) t) = timespec_ns t + d /\
  0 <= tv_nsec (advance_deadline (wrap_s64 d) t) < SECONDS.
Proof.
  intros [Hs Hn] Hnorm Hd Hfit. unfold advance_deadline.
  rewrite (wrap_s64_id d) by (unfold is_s64, SECONDS in *; lia).
  rewrite (wrap_s64_id (tv_nsec t + d)) by (unfold is_s64, SECONDS in *; lia).
  replace (timespec_ns t + d)
    with (timespec_ns {| tv_sec := tv_sec t; tv_nsec := tv_nsec t + d |})
    by (unfold timespec_ns; simpl; lia).
  apply nanoSecondFieldConversion_ns_exact; simpl.
  - split; simpl; [assumption | unfold is_s64, SECONDS in *; lia].
  - lia.
  - assumption.
Qed.

Lemma transmission_time_spec roundOff qbv next :
  transmission_time roundOff qbv next =
  wrap_u64 (timespec_ns next + roundOff + wrap_s32 (qbv * 1000)).
Proof.
  unfold transmission_time, timespec_ns, SECONDS. cbv zeta.
  destruct (wrap_u64_cong (tv_sec next)) as [q1 ->].
  destruct (wrap_u64_cong ((tv_sec next + q1 * 2 ^ 64) * 1000)) as [q2 ->].
  destruct (wrap_u64_cong (((tv_sec next + q1 * 2 ^ 64) * 1000 + q2 * 2 ^ 64) * 1000))
    as [q3 ->].
  match goal with |- context [wrap_u64 (?x * 1000) + wrap_u64 (tv_nsec next)] =>
    destruct (wrap_u64_cong (x * 1000)) as [q4 ->] end.
  destruct (wrap_u64_cong (tv_nsec next)) as [q5 ->].
  match goal with |- context [wrap_u64 ?x + roundOff] =>
    destruct (wrap_u64_cong x) as [q6 ->] end.
  match goal with |- context [wrap_u64 ?x + wrap_u64 (wrap_s32 _)] =>
    destruct (wrap_u64_cong x) as [q7 ->] end.
  destruct (wrap_u64_cong (wrap_s32 (qbv * 1000))) as [q8 ->].
  apply wrap_u64_eq_iff.
  exists (q1 * 1000000000 + q2 * 1000000 + q3 * 1000 + q4 + q5 + q6 + q7 + q8). lia.
Qed.

(** ** The periodic loops *)

Lemma deadline_after_S d k next :
  deadline_after d (S k) next = deadline_after d k (advance_deadline d next).
Proof. unfold deadline_after. apply Nat.iter_succ_r. Qed.

Lemma deadline_after_valid d k next :
  valid_timespec next -> valid_timespec (deadline_after d k next).
Proof.
  intros Hv. induction k as [|k IH]; simpl; [assumption|].
  apply advance_deadline_valid, IH.
Qed.

Lemma deadline_after_ns_u64 P k next :
  valid_timespec next ->
  wrap_u64 (timespec_ns (deadline_after (wrap_s64 P) k next)) =
  wrap_u64 (timespec_ns next + Z.of_nat k * P).
Proof.
  intros Hv. induction k as [|k IH].
  - simpl. f_equal. lia.
  - change (deadline_after (wrap_s64 P) (S k) next)
      with (advance_deadline (wrap_s64 P) (deadline_after (wrap_s64 P) k next)).
    rewrite advance_deadline_ns_u64 by (apply deadline_after_valid; assumption).
    apply wrap_u64_eq_iff in IH. destruct IH as [q Hq].
    apply wrap_u64_eq_iff. exists q. lia.
Qed.

Lemma div_SECONDS_carry s n : (s * SECONDS + n) / SECONDS = s + n / SECONDS.
Proof. apply Z.div_add_l. discriminate. Qed.

Lemma deadline_after_ns_exact P k : forall next,
  valid_timespec next -> 0 <= tv_nsec next < SECONDS -> 0 <= P <= 2 ^ 63 - SECONDS ->
  tv_sec next + (tv_nsec next + Z.of_nat k * P) / SECONDS < 2 ^ 63 ->
  timespec_ns (deadline_after (wrap_s64 P) k next) = timespec_ns next + Z.of_nat k * P /\
  0 <= tv_nsec (deadline_after (wrap_s64 P) k next) < SECONDS.
Proof.
  induction k as [|k IH]; intros next Hv Hnorm HP Hfit.
  - simpl. split; [lia | assumption].
  - change (deadline_after (wrap_s64 P) (S k) next)
      with (advance_deadline (wrap_s64 P) (deadline_after (wrap_s64 P) k next)).
    assert (Hmono : (tv_nsec next + Z.of_nat k * P) / SECONDS
                    <= (tv_nsec next + Z.of_nat (S k) * P) / SECONDS).
    { apply Z.div_le_mono; [reflexivity | nia]. }
    destruct (IH next Hv Hnorm HP ltac:(lia)) as [Hns Hn].
    pose proof (deadline_after_valid (wrap_s64 P) k next Hv) as Hvk.
    set (t := deadline_after (wrap_s64 P) k next) in *.
    assert (Hfit' : tv_sec t + (tv_nsec t + P) / SECONDS < 2 ^ 63).
    { rewrite <- div_SECONDS_carry, Z.add_assoc. fold (timespec_ns t). rewrite Hns.
      unfold timespec_ns. rewrite <- !Z.add_assoc, div_SECONDS_carry.
      replace (tv_nsec next + (Z.of_nat k * P + P))
        with (tv_nsec next + Z.of_nat (S k) * P) by lia.
      assumption. }
    destruct (advance_deadline_ns_exact P t Hvk Hn HP Hfit') as [Hns' Hn'].
    split; [lia | assumption].
Qed.

Lemma publisherETF_loop_lookup P roundOff qbv N : forall next k,
  (k < N)%nat ->
  publisherETF_loop P roundOff qbv (replicate N true) next !! k =
  Some (deadline_after (wrap_s64 P) k next,
        transmission_time roundOff qbv (deadline_after (wrap_s64 P) k next)).
Proof.
  induction N as [|N IH]; intros next k Hk; [lia|].
  destruct k as [|k]; simpl.
  - reflexivity.
  - rewrite IH by lia. rewrite <- deadline_after_S. reflexivity.
Qed.

Lemma publisherETF_loop_length P roundOff qbv N : forall next,
  length (publisherETF_loop P roundOff qbv (replicate N true) next) = N.
Proof. induction N as [|N IH]; intros next; simpl; [reflexivity | f_equal; apply IH]. Qed.

(** C2.  With period [P], through [N] iterations of the publisher loop the
    deadline slept on in iteration [k] is the first deadline plus [k * P],
    for every [k < N].  As the unsigned 64-bit nanosecond count that the
    loop itself forms from a deadline this holds without any condition;
    and when the deadline starts normalised, [P] fits the nanosecond field
    and the seconds stay within [time_t], it is the exact integer
    [next0 + k * P], held in normalised form, so that nothing accumulates. *)
Theorem publisherETF_loop_no_drift (P roundOff qbv : Z) (next0 : timespec) (N k : nat) :
  valid_timespec next0 -> (k < N)%nat ->
  exists d tx,
    length (publisherETF_loop P roundOff qbv (replicate N true) next0) = N /\
    publisherETF_loop P roundOff qbv (replicate N true) next0 !! k = Some (d, tx) /\
    valid_timespec d /\
    wrap_u64 (timespec_ns d) = wrap_u64 (timespec_ns next0 + Z.of_nat k * P) /\
    (0 <= tv_nsec next0 < 10 ^ 9 -> 0 <= P <= 2 ^ 63 - 10 ^ 9 ->
     tv_sec next0 + (tv_nsec next0 + Z.of_nat k * P) / 10 ^ 9 < 2 ^ 63 ->
     timespec_ns d = timespec_ns next0 + Z.of_nat k * P /\
     tv_sec d = tv_sec next0 + (tv_nsec next0 + Z.of_nat k * P) / 10 ^ 9 /\
     tv_nsec d = (tv_nsec next0 + Z.of_nat k * P) mod 10 ^ 9).
Proof.
  intros Hv Hk.
  exists (deadline_after (wrap_s64 P) k next0),
         (transmission_time roundOff qbv (deadline_after (wrap_s64 P) k next0)).
  split; [apply publisherETF_loop_length|].
  split; [apply publisherETF_loop_lookup; assumption|].
  split; [apply deadline_after_valid; assumption|].
  split; [apply deadline_after_ns_u64; assumption|].
  change (10 ^ 9) with SECONDS. intros Hnorm HP Hfit.
  destruct (deadline_after_ns_exact P k next0 Hv Hnorm HP Hfit) as [Hns Hn].
  split; [assumption|].
  destruct (timespec_ns_normalised _ _ Hns Hn) as [Hs Hm].
  rewrite Hs, Hm. unfold timespec_ns.
  rewrite <- !Z.add_assoc, div_SECONDS_carry.
  split; [reflexivity|].
  rewrite Z.add_comm, Z.mod_add by discriminate. reflexivity.
Qed.

Lemma publisherETF_loop_no_drift_witness :
  exists d tx,
    length (publisherETF_loop 250000 100000 125 (replicate 5 true)
              {| tv_sec := 1005; tv_nsec := 999900000 |}) = 5%nat /\
    publisherETF_loop 250000 100000 125 (replicate 5 true)
      {| tv_sec := 1005; tv_nsec := 999900000 |} !! 3%nat = Some (d, tx) /\
    valid_timespec d /\
    wrap_u64 (timespec_ns d) =
      wrap_u64 (timespec_ns {| tv_sec := 1005; tv_nsec := 999900000 |} + Z.of_nat 3 * 250000) /\
    (0 <= 999900000 < 10 ^ 9 -> 0 <= 250000 <= 2 ^ 63 - 10 ^ 9 ->
     1005 + (999900000 + Z.of_nat 3 * 250000) / 10 ^ 9 < 2 ^ 63 ->
     timespec_ns d =
       timespec_ns {| tv_sec := 1005; tv_nsec := 999900000 |} + Z.of_nat 3 * 250000 /\
     tv_sec d = 1005 + (999900000 + Z.of_nat 3 * 250000) / 10 ^ 9 /\
     tv_nsec d = (999900000 + Z.of_nat 3 * 250000) mod 10 ^ 9).
Proof.
  apply (publisherETF_loop_no_drift 250000 100000 125
           {| tv_sec := 1005; tv_nsec := 999900000 |} 5 3).
  - split; unfold is_s64; simpl; lia.
  - lia.
Defined.

Example publisherETF_loop_across_second :
  map fst (publisherETF_loop 250000 100000 125 (replicate 5 true)
             {| tv_sec := 1005; tv_nsec := 999900000 |}) =
  [ {| tv_sec := 1005; tv_nsec := 999900000 |};
    {| tv_sec := 1006; tv_nsec := 150000 |};
    {| tv_sec := 1006; tv_nsec := 400000 |};
    {| tv_sec := 1006; tv_nsec := 650000 |};
    {| tv_sec := 1006; tv_nsec := 900000 |} ].
Proof. reflexivity. Qed.

(** The subscriber loop advances its deadline by the same two statements. *)
Lemma subscriber_loop_lookup P N : forall next k,
  (k < N)%nat ->
  subscriber_loop P (replicate N true) next !! k = Some (deadline_after (wrap_s64 P) k next).
Proof.
  induction N as [|N IH]; intros next k Hk; [lia|].
  destruct k as [|k]; simpl.
  - reflexivity.
  - rewrite IH by lia. rewrite <- deadline_after_S. reflexivity.
Qed.

(** ** The default cycle: 0.25 ms, woken at 0.6, 0 and 0.3 of it *)

(** The decimal literals of the source as binary64 values: 0.25 and 0.125
    are exact, 0.6 and 0.3 are the nearest doubles (0x3FE3333333333333 and
    0x3FD3333333333333). *)
Example literals_binary64 :
  DEFAULT_CYCLE_TIME = S754_finite false 4503599627370496 (-54) /\
  dbl_lit 125 1000 = S754_finite false 4503599627370496 (-55) /\
  pubWakeupPercentage = S754_finite false 5404319552844595 (-53) /\
  userAppWakeupPercentage = S754_finite false 5404319552844595 (-54) /\
  subWakeupPercentage = S754_zero false.
Proof. vm_compute. repeat split. Qed.

Lemma DEFAULT_CYCLE_TIME_interval_ns :
  dbl_to_uint64 (mul_MILLI_SECONDS DEFAULT_CYCLE_TIME) = 250000.
Proof. vm_compute. reflexivity. Qed.

Lemma DEFAULT_CYCLE_TIME_pub_phase :
  dbl_to_slong (dbl_mul (mul_MILLI_SECONDS DEFAULT_CYCLE_TIME) pubWakeupPercentage) = 150000.
Proof. vm_compute. reflexivity. Qed.

Lemma DEFAULT_CYCLE_TIME_userApp_phase :
  dbl_to_slong (dbl_mul (mul_MILLI_SECONDS DEFAULT_CYCLE_TIME) userAppWakeupPercentage) = 75000.
Proof. vm_compute. reflexivity. Qed.

Lemma DEFAULT_CYCLE_TIME_roundOff cfg :
  cycleTimeInMsec cfg = DEFAULT_CYCLE_TIME -> roundOffCycleTime cfg = 100000.
Proof. unfold roundOffCycleTime. intros ->. vm_compute. reflexivity. Qed.

Lemma first_deadline_normal sec nsec :
  is_s64 sec -> sec + SECONDS_SLEEP < 2 ^ 63 -> nsec <= SECONDS - 1 ->
  nanoSecondFieldConversion {| tv_sec := wrap_s64 (sec + SECONDS_SLEEP); tv_nsec := nsec |} =
  {| tv_sec := sec + SECONDS_SLEEP; tv_nsec := nsec |}.
Proof.
  intros Hs Hfit Hn. rewrite nanoSecondFieldConversion_small by assumption.
  rewrite wrap_s64_id by (unfold is_s64, SECONDS_SLEEP in *; lia). reflexivity.
Qed.

(** The claim as worded fails on a run of the default configuration: the
    publisher thread starts when the clock reads 1000.123456789 s and first
    sleeps until 1005.000150000 s, in the cycle that starts at 1005 s.  The
    transmission time computed there is 1005.000375000 s, not the worded
    value, whether [T] is taken as the start of that cycle, as the wake-up
    deadline, or as the start of the cycle before. *)
Lemma spec_transmission_timestamp_counterexample :
  publisherETF default_config {| interval_ms := DEFAULT_CYCLE_TIME |}
    {| tv_sec := 1000; tv_nsec := 123456789 |} [true]
  = [({| tv_sec := 1005; tv_nsec := 150000 |}, 1005000375000)] /\
  1005000375000 <> spec_transmission_timestamp 1005000000000 250000 6 10 125000 /\
  1005000375000 <> spec_transmission_timestamp 1005000150000 250000 6 10 125000 /\
  1005000375000 <> spec_transmission_timestamp (1005000000000 - 250000) 250000 6 10 125000.
Proof. vm_compute. repeat split; discriminate. Qed.

(** C3, as amended.  Cycle time 0.25 ms, wake-up fraction 0.6, so
    [P = 250000] ns, and offset 125 us.  In the cycle that starts at [T] the
    publisher wakes at [W = T + 150000], and the transmission time it
    computes is [W + (P - P * 0.6) + offset = T + P + offset = T + 375000],
    an exact integer count of nanoseconds. *)
Theorem publisherETF_transmission_time (cfg : config) (now : timespec) (N k : nat) :
  cycleTimeInMsec cfg = DEFAULT_CYCLE_TIME -> qbvOffset cfg = 125 ->
  valid_timespec now -> 0 <= tv_sec now ->
  (tv_sec now + 5) * 10 ^ 9 + Z.of_nat k * 250000 + 375000 < 2 ^ 63 ->
  (k < N)%nat ->
  let T := (tv_sec now + 5) * 10 ^ 9 + Z.of_nat k * 250000 in
  exists W tx,
    publisherETF cfg {| interval_ms := DEFAULT_CYCLE_TIME |} now (replicate N true) !! k
      = Some (W, tx) /\
    timespec_ns W = T + 150000 /\
    tx = timespec_ns W + (250000 - 250000 * 6 / 10) + 125000 /\
    tx = T + 250000 + 125000.
Proof.
  intros Hc Hq [Hs Hn] H0 Hfit Hk T.
  unfold publisherETF, publisherETF_first_deadline. cbv zeta.
  rewrite (DEFAULT_CYCLE_TIME_roundOff cfg Hc), Hc, Hq. simpl interval_ms.
  rewrite DEFAULT_CYCLE_TIME_interval_ns, DEFAULT_CYCLE_TIME_pub_phase.
  rewrite first_deadline_normal
    by (assumption || unfold SECONDS, SECONDS_SLEEP, is_s64 in *; lia).
  set (next0 := {| tv_sec := tv_sec now + SECONDS_SLEEP; tv_nsec := 150000 |}).
  assert (Hv0 : valid_timespec next0).
  { split; unfold is_s64, SECONDS_SLEEP in *; simpl; lia. }
  assert (Hdiv : (150000 + Z.of_nat k * 250000) / SECONDS <= Z.of_nat k * 250000 + 150000).
  { apply Z.div_le_upper_bound; [reflexivity | unfold SECONDS; lia]. }
  destruct (deadline_after_ns_exact 250000 k next0 Hv0) as [Hns Hnorm].
  { simpl. unfold SECONDS. lia. }
  { unfold SECONDS. lia. }
  { simpl. unfold SECONDS_SLEEP. lia. }
  exists (deadline_after (wrap_s64 250000) k next0),
         (transmission_time 100000 125 (deadline_after (wrap_s64 250000) k next0)).
  split; [apply publisherETF_loop_lookup; assumption|].
  assert (HW : timespec_ns (deadline_after (wrap_s64 250000) k next0) = T + 150000).
  { rewrite Hns. unfold timespec_ns, next0, T, SECONDS, SECONDS_SLEEP. simpl. lia. }
  rewrite transmission_time_spec, HW.
  change (wrap_s32 (125 * 1000)) with 125000.
  change (250000 * 6 / 10) with 150000.
  rewrite wrap_u64_id by (unfold is_u64, T; lia).
  repeat split; lia.
Qed.

Lemma publisherETF_transmission_time_witness :
  let T := (1000 + 5) * 10 ^ 9 + Z.of_nat 2 * 250000 in
  exists W tx,
    publisherETF default_config {| interval_ms := DEFAULT_CYCLE_TIME |}
      {| tv_sec := 1000; tv_nsec := 123456789 |} (replicate 4 true) !! 2%nat
      = Some (W, tx) /\
    timespec_ns W = T + 150000 /\
    tx = timespec_ns W + (250000 - 250000 * 6 / 10) + 125000 /\
    tx = T + 250000 + 125000.
Proof.
  apply (publisherETF_transmission_time default_config
           {| tv_sec := 1000; tv_nsec := 123456789 |} 4 2).
  - reflexivity.
  - reflexivity.
  - split; unfold is_s64; simpl; lia.
  - simpl; lia.
  - simpl; lia.
  - lia.
Defined.

(** ** First deadlines *)









(** A cycle time of 1875 ms: the publisher's offset of 1.125 s is carried. *)
Example first_deadlines_with_carry :
  let cfg := set_cycleTimeInMsec (dbl_lit 15000 8) default_config in
  let now := {| tv_sec := 1000; tv_nsec := 123456789 |} in
  publisherETF_first_deadline cfg now = {| tv_sec := 1006; tv_nsec := 125000000 |} /\
  subscriber_first_deadline now = {| tv_sec := 1005; tv_nsec := 0 |} /\
  userApplicationPubSub_first_deadline cfg now = {| tv_sec := 1005; tv_nsec := 562500000 |}.
Proof. vm_compute. repeat split. Qed.

Example first_deadlines_default :
  let now := {| tv_sec := 1000; tv_nsec := 123456789 |} in
  publisherETF_first_deadline default_config now = {| tv_sec := 1005; tv_nsec := 150000 |} /\
  subscriber_first_deadline now = {| tv_sec := 1005; tv_nsec := 0 |} /\
  userApplicationPubSub_first_deadline default_config now = {| tv_sec := 1005; tv_nsec := 75000 |}.
Proof. vm_compute. repeat split. Qed.

(** ** Measurement logs *)

Lemma updateMeasurementsPublisher_full start_time counterValue g :
  MAX_MEASUREMENTS <= measurementsPublisher g ->
  updateMeasurementsPublisher start_time counterValue g = set_running false g.
Proof.
  intros H. unfold updateMeasurementsPublisher.
  destruct (Z.geb_spec (measurementsPublisher g) MAX_MEASUREMENTS); [reflexivity | lia].
Qed.

Lemma updateMeasurementsPublisher_room start_time counterValue g :
  0 <= measurementsPublisher g < MAX_MEASUREMENTS ->
  updateMeasurementsPublisher start_time counterValue g =
  set_publish_log
    (<[measurementsPublisher g := counterValue]> (publishCounterValue g))
    (<[measurementsPublisher g := start_time]> (publishTimestamp g))
    (measurementsPublisher g + 1) g.
Proof.
  intros H. unfold updateMeasurementsPublisher.
  destruct (Z.geb_spec (measurementsPublisher g) MAX_MEASUREMENTS); [lia|].
  rewrite wrap_u64_id by (unfold is_u64, MAX_MEASUREMENTS in *; lia). reflexivity.
Qed.

Lemma updateMeasurementsSubscriber_full receive_time counterValue g :
  MAX_MEASUREMENTS <= measurementsSubscriber g ->
  updateMeasurementsSubscriber receive_time counterValue g = set_running false g.
Proof.
  intros H. unfold updateMeasurementsSubscriber.
  destruct (Z.geb_spec (measurementsSubscriber g) MAX_MEASUREMENTS); [reflexivity | lia].
Qed.

Lemma updateMeasurementsSubscriber_room receive_time counterValue g :
  0 <= measurementsSubscriber g < MAX_MEASUREMENTS ->
  updateMeasurementsSubscriber receive_time counterValue g =
  set_subscribe_log
    (<[measurementsSubscriber g := counterValue]> (subscribeCounterValue g))
    (<[measurementsSubscriber g := receive_time]> (subscribeTimestamp g))
    (measurementsSubscriber g + 1) g.
Proof.
  intros H. unfold updateMeasurementsSubscriber.
  destruct (Z.geb_spec (measurementsSubscriber g) MAX_MEASUREMENTS); [lia|].
  rewrite wrap_u64_id by (unfold is_u64, MAX_MEASUREMENTS in *; lia). reflexivity.
Qed.

Lemma log_holds_empty {A} (arg : nat -> A) : log_holds (∅ : gmap Z A) 0 arg.
Proof.
  split; [apply map_size_empty|]. intros i. rewrite lookup_empty.
  destruct (decide (0 <= i < Z.of_nat 0)); [lia | reflexivity].
Qed.

Lemma log_holds_insert {A} (m : gmap Z A) n (arg : nat -> A) :
  log_holds m n arg -> log_holds (<[Z.of_nat n := arg n]> m) (S n) arg.
Proof.
  intros [Hsize Hlook]. split.
  - rewrite map_size_insert_None, Hsize; [reflexivity|].
    rewrite Hlook. destruct (decide (0 <= Z.of_nat n < Z.of_nat n)); [lia | reflexivity].
  - intros i. destruct (decide (i = Z.of_nat n)) as [->|Hne].
    + rewrite lookup_insert_eq, Nat2Z.id.
      destruct (decide (0 <= Z.of_nat n < Z.of_nat (S n))); [reflexivity | lia].
    + rewrite lookup_insert_ne by congruence. rewrite Hlook.
      destruct (decide (0 <= i < Z.of_nat n)), (decide (0 <= i < Z.of_nat (S n)));
        (reflexivity || lia).
Qed.

Lemma updateMeasurementsPublisher_calls_room calls g n :
  measurementsPublisher g = 0 -> publishCounterValue g = ∅ -> publishTimestamp g = ∅ ->
  Z.of_nat n <= MAX_MEASUREMENTS ->
  let g' := updateMeasurementsPublisher_calls calls n g in
  measurementsPublisher g' = Z.of_nat n /\
  log_holds (publishCounterValue g') n (fun i => snd (calls i)) /\
  log_holds (publishTimestamp g') n (fun i => fst (calls i)) /\
  running g' = running g.
Proof.
  intros Hcount Hvs Hts. induction n as [|n IH]; intros Hn; simpl.
  - rewrite Hvs, Hts. split; [assumption|]. split; [apply log_holds_empty|].
    split; [apply log_holds_empty | reflexivity].
  - destruct (IH ltac:(lia)) as (Hc & Hv & Ht & Hr).
    rewrite updateMeasurementsPublisher_room by lia. simpl. rewrite Hc.
    split; [lia|]. split; [apply (log_holds_insert _ _ _ Hv)|].
    split; [apply (log_holds_insert _ _ _ Ht) | assumption].
Qed.

Lemma updateMeasurementsSubscriber_calls_room calls g n :
  measurementsSubscriber g = 0 -> subscribeCounterValue g = ∅ -> subscribeTimestamp g = ∅ ->
  Z.of_nat n <= MAX_MEASUREMENTS ->
  let g' := updateMeasurementsSubscriber_calls calls n g in
  measurementsSubscriber g' = Z.of_nat n /\
  log_holds (subscribeCounterValue g') n (fun i => snd (calls i)) /\
  log_holds (subscribeTimestamp g') n (fun i => fst (calls i)) /\
  running g' = running g.
Proof.
  intros Hcount Hvs Hts. induction n as [|n IH]; intros Hn; simpl.
  - rewrite Hvs, Hts. split; [assumption|]. split; [apply log_holds_empty|].
    split; [apply log_holds_empty | reflexivity].
  - destruct (IH ltac:(lia)) as (Hc & Hv & Ht & Hr).
    rewrite updateMeasurementsSubscriber_room by lia. simpl. rewrite Hc.
    split; [lia|]. split; [apply (log_holds_insert _ _ _ Hv)|].
    split; [apply (log_holds_insert _ _ _ Ht) | assumption].
Qed.

Lemma updateMeasurementsPublisher_calls_over calls g capacity :
  Z.of_nat capacity = MAX_MEASUREMENTS ->
  measurementsPublisher g = 0 -> publishCounterValue g = ∅ -> publishTimestamp g = ∅ ->
  let full := updateMeasurementsPublisher_calls calls capacity g in
  let over := updateMeasurementsPublisher_calls calls (S capacity) g in
  measurementsPublisher over = MAX_MEASUREMENTS /\
  log_holds (publishCounterValue over) capacity (fun i => snd (calls i)) /\
  log_holds (publishTimestamp over) capacity (fun i => fst (calls i)) /\
  publishCounterValue over = publishCounterValue full /\
  publishTimestamp over = publishTimestamp full /\
  measurementsPublisher over = measurementsPublisher full /\
  running over = false.
Proof.
  intros Hcap Hpc Hpv Hpt.
  destruct (updateMeasurementsPublisher_calls_room calls g capacity Hpc Hpv Hpt ltac:(lia))
    as (Hc & Hv & Ht & _).
  simpl. rewrite updateMeasurementsPublisher_full by lia. simpl.
  split; [lia|]. split; [assumption|]. split; [assumption|]. repeat split.
Qed.

Lemma updateMeasurementsSubscriber_calls_over calls g capacity :
  Z.of_nat capacity = MAX_MEASUREMENTS ->
  measurementsSubscriber g = 0 -> subscribeCounterValue g = ∅ -> subscribeTimestamp g = ∅ ->
  let full := updateMeasurementsSubscriber_calls calls capacity g in
  let over := updateMeasurementsSubscriber_calls calls (S capacity) g in
  measurementsSubscriber over = MAX_MEASUREMENTS /\
  log_holds (subscribeCounterValue over) capacity (fun i => snd (calls i)) /\
  log_holds (subscribeTimestamp over) capacity (fun i => fst (calls i)) /\
  subscribeCounterValue over = subscribeCounterValue full /\
  subscribeTimestamp over = subscribeTimestamp full /\
  measurementsSubscriber over = measurementsSubscriber full /\
  running over = false.
Proof.
  intros Hcap Hsc Hsv Hst.
  destruct (updateMeasurementsSubscriber_calls_room calls g capacity Hsc Hsv Hst ltac:(lia))
    as (Hc & Hv & Ht & _).
  simpl. rewrite updateMeasurementsSubscriber_full by lia. simpl.
  split; [lia|]. split; [assumption|]. split; [assumption|]. repeat split.
Qed.

Lemma MAX_MEASUREMENTS_nat : Z.of_nat (Z.to_nat MAX_MEASUREMENTS) = MAX_MEASUREMENTS.
Proof. rewrite Z2Nat.id; [reflexivity | discriminate]. Qed.

(** C5.  Start from an empty log and call the append operation
    [MAX_MEASUREMENTS + 1] times, with any arguments.  Then the log holds
    exactly [MAX_MEASUREMENTS] records, those of the first
    [MAX_MEASUREMENTS] calls, and the count is [MAX_MEASUREMENTS]; the last
    call changed neither the records nor the count; and [running] is false.
    This holds of the publisher's log and of the subscriber's. *)
Theorem measurement_log_overflow (calls : nat -> timespec * Z) (g : globals) :
  measurementsPublisher g = 0 -> publishCounterValue g = ∅ -> publishTimestamp g = ∅ ->
  measurementsSubscriber g = 0 -> subscribeCounterValue g = ∅ -> subscribeTimestamp g = ∅ ->
  let capacity := Z.to_nat MAX_MEASUREMENTS in
  (let full := updateMeasurementsPublisher_calls calls capacity g in
   let over := updateMeasurementsPublisher_calls calls (S capacity) g in
   measurementsPublisher over = MAX_MEASUREMENTS /\
   log_holds (publishCounterValue over) capacity (fun i => snd (calls i)) /\
   log_holds (publishTimestamp over) capacity (fun i => fst (calls i)) /\
   publishCounterValue over = publishCounterValue full /\
   publishTimestamp over = publishTimestamp full /\
   measurementsPublisher over = measurementsPublisher full /\
   running over = false) /\
  (let full := updateMeasurementsSubscriber_calls calls capacity g in
   let over := updateMeasurementsSubscriber_calls calls (S capacity) g in
   measurementsSubscriber over = MAX_MEASUREMENTS /\
   log_holds (subscribeCounterValue over) capacity (fun i => snd (calls i)) /\
   log_holds (subscribeTimestamp over) capacity (fun i => fst (calls i)) /\
   subscribeCounterValue over = subscribeCounterValue full /\
   subscribeTimestamp over = subscribeTimestamp full /\
   measurementsSubscriber over = measurementsSubscriber full /\
   running over = false).
Proof.
  intros Hpc Hpv Hpt Hsc Hsv Hst. split.
  - exact (updateMeasurementsPublisher_calls_over calls g _ MAX_MEASUREMENTS_nat Hpc Hpv Hpt).
  - exact (updateMeasurementsSubscriber_calls_over calls g _ MAX_MEASUREMENTS_nat Hsc Hsv Hst).
Qed.

Lemma measurement_log_overflow_witness :
  let calls := fun i : nat => ({| tv_sec := 1005; tv_nsec := Z.of_nat i |}, Z.of_nat i + 1) in
  let g := initial_globals in
  let capacity := Z.to_nat MAX_MEASUREMENTS in
  (let full := updateMeasurementsPublisher_calls calls capacity g in
   let over := updateMeasurementsPublisher_calls calls (S capacity) g in
   measurementsPublisher over = MAX_MEASUREMENTS /\
   log_holds (publishCounterValue over) capacity (fun i => snd (calls i)) /\
   log_holds (publishTimestamp over) capacity (fun i => fst (calls i)) /\
   publishCounterValue over = publishCounterValue full /\
   publishTimestamp over = publishTimestamp full /\
   measurementsPublisher over = measurementsPublisher full /\
   running over = false) /\
  (let full := updateMeasurementsSubscriber_calls calls capacity g in
   let over := updateMeasurementsSubscriber_calls calls (S capacity) g in
   measurementsSubscriber over = MAX_MEASUREMENTS /\
   log_holds (subscribeCounterValue over) capacity (fun i => snd (calls i)) /\
   log_holds (subscribeTimestamp over) capacity (fun i => fst (calls i)) /\
   subscribeCounterValue over = subscribeCounterValue full /\
   subscribeTimestamp over = subscribeTimestamp full /\
   measurementsSubscriber over = measurementsSubscriber full /\
   running over = false).
Proof.
  apply (measurement_log_overflow
           (fun i : nat => ({| tv_sec := 1005; tv_nsec := Z.of_nat i |}, Z.of_nat i + 1))
           initial_globals); reflexivity.
Defined.

(** ** User application thread *)

Lemma wrap_u64_add_l a b : wrap_u64 (wrap_u64 a + b) = wrap_u64 (a + b).
Proof. unfold wrap_u64. apply Zplus_mod_idemp_l. Qed.

Lemma user_env_apply_counters e g :
  pubCounterData (user_env_apply e g) = pubCounterData g /\
  repeatedCounterData (user_env_apply e g) = repeatedCounterData g.
Proof.
  unfold user_env_apply.
  destruct (ue_signal e), (ue_received e); simpl; split; reflexivity.
Qed.

(** The producer counters after one loop body: every one of them, and
    nothing else about them, is incremented in [UA_UInt64]. *)
Lemma userApplicationPubSub_body_counters cfg e s :
  pubCounterData (snd (userApplicationPubSub_body cfg e s)) =
    wrap_u64 (pubCounterData (snd s) + 1) /\
  repeatedCounterData (snd (userApplicationPubSub_body cfg e s)) =
    alter (fun v => wrap_u64 (v + 1)) 1%nat
      (alter (fun v => wrap_u64 (v + 1)) 0%nat (repeatedCounterData (snd s))).
Proof.
  unfold userApplicationPubSub_body. simpl.
  destruct (enableCsvLog cfg); [|simpl; split; reflexivity].
  unfold updateMeasurementsPublisher, updateMeasurementsSubscriber. simpl.
  destruct (measurementsPublisher (snd s) >=? MAX_MEASUREMENTS); simpl;
    destruct (subCounterData (snd s) >? 0); simpl;
    try destruct (measurementsSubscriber (snd s) >=? MAX_MEASUREMENTS); simpl;
    split; reflexivity.
Qed.

Lemma alter_both_replicate c :
  alter (fun v => wrap_u64 (v + 1)) 1%nat
    (alter (fun v => wrap_u64 (v + 1)) 0%nat (replicate REPEATED_NODECOUNTS c)) =
  replicate REPEATED_NODECOUNTS (wrap_u64 (c + 1)).
Proof. reflexivity. Qed.

Lemma userApplicationPubSub_iterations_pubCounterData cfg envs : forall s,
  is_u64 (pubCounterData (snd s)) ->
  pubCounterData (snd (userApplicationPubSub_iterations cfg envs s)) =
  wrap_u64 (pubCounterData (snd s) + Z.of_nat (length envs)).
Proof.
  induction envs as [|e envs IH]; intros s Hu.
  - simpl. rewrite Z.add_0_r, wrap_u64_id by assumption. reflexivity.
  - cbn [userApplicationPubSub_iterations length]. rewrite IH.
    + destruct (userApplicationPubSub_body_counters cfg e (fst s, user_env_apply e (snd s)))
        as [-> _].
      cbn [snd]. destruct (user_env_apply_counters e (snd s)) as [-> _].
      rewrite wrap_u64_add_l. f_equal. lia.
    + destruct (userApplicationPubSub_body_counters cfg e (fst s, user_env_apply e (snd s)))
        as [-> _].
      apply wrap_u64_range.
Qed.

Lemma userApplicationPubSub_loop_pubCounterData cfg envs : forall s,
  is_u64 (pubCounterData (snd s)) ->
  pubCounterData (snd (snd (userApplicationPubSub_loop cfg envs s))) =
  wrap_u64 (pubCounterData (snd s) + Z.of_nat (fst (userApplicationPubSub_loop cfg envs s))).
Proof.
  induction envs as [|e envs IH]; intros s Hu.
  - simpl. rewrite Z.add_0_r, wrap_u64_id by assumption. reflexivity.
  - cbn [userApplicationPubSub_loop].
    destruct (running (user_env_apply e (snd s))).
    + cbn [fst snd]. rewrite IH.
      * destruct (userApplicationPubSub_body_counters cfg e (fst s, user_env_apply e (snd s)))
          as [-> _].
        cbn [snd]. destruct (user_env_apply_counters e (snd s)) as [-> _].
        rewrite wrap_u64_add_l. f_equal. lia.
      * destruct (userApplicationPubSub_body_counters cfg e (fst s, user_env_apply e (snd s)))
          as [-> _].
        apply wrap_u64_range.
    + cbn [fst snd]. destruct (user_env_apply_counters e (snd s)) as [-> _].
      rewrite Z.add_0_r, wrap_u64_id by assumption. reflexivity.
Qed.

(** C6.  The loop body of the user application, the only writer of the
    producer counter, adds exactly 1 to it, so after [N] iterations the
    counter is its initial value plus [N]: in [UA_UInt64] arithmetic always,
    and as the plain sum as long as that fits 64 bits.  The same count holds
    for the [while (running)] loop and the number of iterations it makes.
    What the signal handler and the receiver do in between has no part in
    it. *)
Theorem userApplicationPubSub_counter_after_iterations
    (cfg : config) (envs : list user_env) (s : timespec * globals) :
  is_u64 (pubCounterData (snd s)) ->
  let c0 := pubCounterData (snd s) in
  let N := Z.of_nat (length envs) in
  (forall e s', pubCounterData (snd (userApplicationPubSub_body cfg e s')) =
                wrap_u64 (pubCounterData (snd s') + 1)) /\
  pubCounterData (snd (userApplicationPubSub_iterations cfg envs s)) = wrap_u64 (c0 + N) /\
  (c0 + N < 2 ^ 64 ->
   pubCounterData (snd (userApplicationPubSub_iterations cfg envs s)) = c0 + N) /\
  pubCounterData (snd (snd (userApplicationPubSub_loop cfg envs s))) =
    wrap_u64 (c0 + Z.of_nat (fst (userApplicationPubSub_loop cfg envs s))).
Proof.
  intros Hu c0 N. split; [|split; [|split]].
  - intros e s'. apply userApplicationPubSub_body_counters.
  - apply userApplicationPubSub_iterations_pubCounterData. assumption.
  - intros Hfit. rewrite userApplicationPubSub_iterations_pubCounterData by assumption.
    apply wrap_u64_id. unfold is_u64 in *. fold c0 N. lia.
  - apply userApplicationPubSub_loop_pubCounterData. assumption.
Qed.

Lemma userApplicationPubSub_counter_after_iterations_witness :
  let cfg := default_config in
  let e := {| ue_signal := false; ue_received := Some 7;
              ue_modification_time := {| tv_sec := 1005; tv_nsec := 75100 |};
              ue_receive_time := {| tv_sec := 1005; tv_nsec := 75200 |} |} in
  let envs := [e; e; e] in
  let s := ({| tv_sec := 1005; tv_nsec := 75000 |}, set_pubCounterData 41 initial_globals) in
  let c0 := pubCounterData (snd s) in
  let N := Z.of_nat (length envs) in
  (forall e s', pubCounterData (snd (userApplicationPubSub_body cfg e s')) =
                wrap_u64 (pubCounterData (snd s') + 1)) /\
  pubCounterData (snd (userApplicationPubSub_iterations cfg envs s)) = wrap_u64 (c0 + N) /\
  (c0 + N < 2 ^ 64 ->
   pubCounterData (snd (userApplicationPubSub_iterations cfg envs s)) = c0 + N) /\
  pubCounterData (snd (snd (userApplicationPubSub_loop cfg envs s))) =
    wrap_u64 (c0 + Z.of_nat (fst (userApplicationPubSub_loop cfg envs s))).
Proof.
  intros cfg e envs s.
  apply (userApplicationPubSub_counter_after_iterations cfg envs s).
  unfold is_u64; simpl; lia.
Defined.

Example userApplicationPubSub_three_iterations :
  let e := {| ue_signal := false; ue_received := Some 7;
              ue_modification_time := {| tv_sec := 1005; tv_nsec := 75100 |};
              ue_receive_time := {| tv_sec := 1005; tv_nsec := 75200 |} |} in
  let s := ({| tv_sec := 1005; tv_nsec := 75000 |}, set_pubCounterData 41 initial_globals) in
  pubCounterData (snd (userApplicationPubSub_iterations default_config [e; e; e] s)) = 44 /\
  fst (userApplicationPubSub_iterations default_config [e; e; e] s) =
    {| tv_sec := 1005; tv_nsec := 825000 |}.
Proof. vm_compute. split; reflexivity. Qed.

Lemma userApplicationPubSub_reset_counters g :
  length (repeatedCounterData g) = REPEATED_NODECOUNTS ->
  pubCounterData (userApplicationPubSub_reset g) = 0 /\
  repeatedCounterData (userApplicationPubSub_reset g) = replicate REPEATED_NODECOUNTS 10.
Proof.
  intros Hlen. unfold userApplicationPubSub_reset. simpl.
  destruct (repeatedCounterData g) as [|a [|b [|c l]]]; try discriminate.
  split; reflexivity.
Qed.

Lemma userApplicationPubSub_iterations_repeatedCounterData cfg envs : forall s c,
  is_u64 c -> repeatedCounterData (snd s) = replicate REPEATED_NODECOUNTS c ->
  repeatedCounterData (snd (userApplicationPubSub_iterations cfg envs s)) =
  replicate REPEATED_NODECOUNTS (wrap_u64 (c + Z.of_nat (length envs))).
Proof.
  induction envs as [|e envs IH]; intros s c Hu Hrep.
  - simpl length. rewrite Z.add_0_r, wrap_u64_id by assumption. exact Hrep.
  - cbn [userApplicationPubSub_iterations length].
    rewrite (IH _ (wrap_u64 (c + 1))).
    + rewrite wrap_u64_add_l. do 2 f_equal. lia.
    + apply wrap_u64_range.
    + destruct (userApplicationPubSub_body_counters cfg e (fst s, user_env_apply e (snd s)))
        as [_ ->].
      cbn [snd]. destruct (user_env_apply_counters e (snd s)) as [_ ->].
      rewrite Hrep. apply alter_both_replicate.
Qed.

(** With logging disabled the loop body leaves both logs alone. *)
Lemma userApplicationPubSub_body_no_logging cfg e s :
  enableCsvLog cfg = false ->
  let g := snd s in
  let g' := snd (userApplicationPubSub_body cfg e s) in
  publishCounterValue g' = publishCounterValue g /\
  publishTimestamp g' = publishTimestamp g /\
  measurementsPublisher g' = measurementsPublisher g /\
  subscribeCounterValue g' = subscribeCounterValue g /\
  subscribeTimestamp g' = subscribeTimestamp g /\
  measurementsSubscriber g' = measurementsSubscriber g /\
  running g' = running g.
Proof.
  intros Hlog g g'. unfold g', userApplicationPubSub_body. rewrite Hlog. simpl.
  repeat split.
Qed.

Lemma userApplicationPubSub_loop_repeatedCounterData cfg envs : forall s c,
  is_u64 c -> repeatedCounterData (snd s) = replicate REPEATED_NODECOUNTS c ->
  repeatedCounterData (snd (snd (userApplicationPubSub_loop cfg envs s))) =
  replicate REPEATED_NODECOUNTS
    (wrap_u64 (c + Z.of_nat (fst (userApplicationPubSub_loop cfg envs s)))).
Proof.
  induction envs as [|e envs IH]; intros s c Hu Hrep.
  - simpl. rewrite Z.add_0_r, wrap_u64_id by assumption. exact Hrep.
  - cbn [userApplicationPubSub_loop].
    destruct (running (user_env_apply e (snd s))).
    + cbn [fst snd]. rewrite (IH _ (wrap_u64 (c + 1))).
      * rewrite wrap_u64_add_l. do 2 f_equal. lia.
      * apply wrap_u64_range.
      * destruct (userApplicationPubSub_body_counters cfg e (fst s, user_env_apply e (snd s)))
          as [_ ->].
        cbn [snd]. destruct (user_env_apply_counters e (snd s)) as [_ ->].
        rewrite Hrep. apply alter_both_replicate.
    + cbn [fst snd]. destruct (user_env_apply_counters e (snd s)) as [_ ->].
      rewrite Z.add_0_r, wrap_u64_id by assumption. exact Hrep.
Qed.

(** While nothing stops it, the [while (running)] loop makes one iteration
    for each element of [envs]. *)
Lemma userApplicationPubSub_loop_runs cfg envs : forall s,
  enableCsvLog cfg = false -> running (snd s) = true ->
  Forall (fun e => ue_signal e = false) envs ->
  userApplicationPubSub_loop cfg envs s =
  (length envs, userApplicationPubSub_iterations cfg envs s).
Proof.
  induction envs as [|e envs IH]; intros s Hlog Hrun Hsig.
  - reflexivity.
  - inversion Hsig as [|? ? He Hsig']; subst.
    cbn [userApplicationPubSub_loop userApplicationPubSub_iterations length].
    assert (Hrun' : running (user_env_apply e (snd s)) = true).
    { unfold user_env_apply. rewrite He. destruct (ue_received e); exact Hrun. }
    rewrite Hrun'. rewrite IH; [reflexivity | assumption | | assumption].
    destruct (userApplicationPubSub_body_no_logging cfg e
                (fst s, user_env_apply e (snd s)) Hlog) as (_ & _ & _ & _ & _ & _ & ->).
    exact Hrun'.
Qed.

(** C10.  Before its first cycle the user application stores 0 in the main
    producer counter and 10 in each repeated producer counter.  After [N]
    loop iterations the main counter is [N] and each repeated counter is
    [10 + N]; both are [UA_UInt64] values, equal to the plain numbers as
    long as [10 + N] fits 64 bits.  The thread routine as a whole, which
    leaves its loop when [running] is found false, ends with the counters
    at [N] and [10 + N] for the number [N] of iterations it has made. *)
Theorem userApplicationPubSub_counters_from_reset
    (cfg : config) (now : timespec) (envs : list user_env) (g : globals) :
  length (repeatedCounterData g) = REPEATED_NODECOUNTS ->
  let s0 := (userApplicationPubSub_first_deadline cfg now, userApplicationPubSub_reset g) in
  let sN := userApplicationPubSub_iterations cfg envs s0 in
  let N := Z.of_nat (length envs) in
  pubCounterData (snd s0) = 0 /\
  repeatedCounterData (snd s0) = replicate REPEATED_NODECOUNTS 10 /\
  pubCounterData (snd sN) = wrap_u64 N /\
  repeatedCounterData (snd sN) = replicate REPEATED_NODECOUNTS (wrap_u64 (10 + N)) /\
  (10 + N < 2 ^ 64 ->
   pubCounterData (snd sN) = N /\
   repeatedCounterData (snd sN) = replicate REPEATED_NODECOUNTS (10 + N)) /\
  (let r := userApplicationPubSub cfg now envs g in
   pubCounterData (snd (snd r)) = wrap_u64 (Z.of_nat (fst r)) /\
   repeatedCounterData (snd (snd r)) =
     replicate REPEATED_NODECOUNTS (wrap_u64 (10 + Z.of_nat (fst r)))).
Proof.
  intros Hlen s0 sN N.
  destruct (userApplicationPubSub_reset_counters g Hlen) as [Hpub Hrep].
  assert (HpubN : pubCounterData (snd sN) = wrap_u64 N).
  { unfold sN. rewrite userApplicationPubSub_iterations_pubCounterData.
    - unfold s0. cbn [snd]. rewrite Hpub. reflexivity.
    - unfold s0. cbn [snd]. rewrite Hpub. unfold is_u64. lia. }
  assert (HrepN : repeatedCounterData (snd sN) =
                  replicate REPEATED_NODECOUNTS (wrap_u64 (10 + N))).
  { unfold sN. apply userApplicationPubSub_iterations_repeatedCounterData.
    - unfold is_u64. lia.
    - exact Hrep. }
  split; [exact Hpub|]. split; [exact Hrep|]. split; [exact HpubN|]. split; [exact HrepN|].
  split.
  - intros Hfit. rewrite HpubN, HrepN.
    rewrite !wrap_u64_id by (unfold is_u64, N; lia). split; reflexivity.
  - unfold userApplicationPubSub. fold s0. split.
    + rewrite userApplicationPubSub_loop_pubCounterData.
      * unfold s0 at 1. cbn [snd]. rewrite Hpub. reflexivity.
      * unfold s0. cbn [snd]. rewrite Hpub. unfold is_u64. lia.
    + apply userApplicationPubSub_loop_repeatedCounterData.
      * unfold is_u64. lia.
      * exact Hrep.
Qed.

Lemma userApplicationPubSub_counters_from_reset_witness :
  let cfg := default_config in
  let now := {| tv_sec := 1000; tv_nsec := 123456789 |} in
  let e := {| ue_signal := false; ue_received := None;
              ue_modification_time := {| tv_sec := 1005; tv_nsec := 75100 |};
              ue_receive_time := {| tv_sec := 1005; tv_nsec := 75200 |} |} in
  let envs := [e; e; e; e] in
  let g := set_pubCounterData 99 initial_globals in
  let s0 := (userApplicationPubSub_first_deadline cfg now, userApplicationPubSub_reset g) in
  let sN := userApplicationPubSub_iterations cfg envs s0 in
  let N := Z.of_nat (length envs) in
  pubCounterData (snd s0) = 0 /\
  repeatedCounterData (snd s0) = replicate REPEATED_NODECOUNTS 10 /\
  pubCounterData (snd sN) = wrap_u64 N /\
  repeatedCounterData (snd sN) = replicate REPEATED_NODECOUNTS (wrap_u64 (10 + N)) /\
  (10 + N < 2 ^ 64 ->
   pubCounterData (snd sN) = N /\
   repeatedCounterData (snd sN) = replicate REPEATED_NODECOUNTS (10 + N)) /\
  (let r := userApplicationPubSub cfg now envs g in
   pubCounterData (snd (snd r)) = wrap_u64 (Z.of_nat (fst r)) /\
   repeatedCounterData (snd (snd r)) =
     replicate REPEATED_NODECOUNTS (wrap_u64 (10 + Z.of_nat (fst r)))).
Proof.
  intros cfg now e envs g.
  apply (userApplicationPubSub_counters_from_reset cfg now envs g).
  reflexivity.
Defined.

Example userApplicationPubSub_four_iterations_from_reset :
  let e := {| ue_signal := false; ue_received := None;
              ue_modification_time := {| tv_sec := 1005; tv_nsec := 75100 |};
              ue_receive_time := {| tv_sec := 1005; tv_nsec := 75200 |} |} in
  let r := userApplicationPubSub default_config {| tv_sec := 1000; tv_nsec := 123456789 |}
             [e; e; e; e] (set_pubCounterData 99 initial_globals) in
  fst r = 4%nat /\
  pubCounterData (snd (snd r)) = 4 /\
  repeatedCounterData (snd (snd r)) = [14; 14].
Proof. vm_compute. repeat split. Qed.

(** The claim as worded fails on the first cycle of a run with logging
    enabled: nothing has been received yet, [*subCounterData] is 0, and the
    loop body appends to the publisher's log but not to the subscriber's,
    although that log is empty and far from its capacity. *)
Lemma userApplicationPubSub_body_logs_both_counterexample :
  let cfg := set_enableCsvLog true default_config in
  let e := {| ue_signal := false; ue_received := None;
              ue_modification_time := {| tv_sec := 1005; tv_nsec := 75100 |};
              ue_receive_time := {| tv_sec := 1005; tv_nsec := 75200 |} |} in
  let g := initial_globals in
  let g' := snd (userApplicationPubSub_body cfg e ({| tv_sec := 1005; tv_nsec := 75000 |}, g)) in
  enableCsvLog cfg = true /\
  measurementsSubscriber g < MAX_MEASUREMENTS /\
  measurementsPublisher g' = 1 /\
  publishCounterValue g' !! 0 = Some 1 /\
  measurementsSubscriber g' = 0 /\
  subscribeCounterValue g' !! 0 = None /\
  subscribeTimestamp g' !! 0 = None.
Proof. vm_compute. repeat split. Qed.

(** C8, as amended.  In an iteration of the user application's loop with
    logging enabled, the pair (producer counter, modification time) is
    appended to the publisher's log, subject to the capacity check of that
    log only.  The pair (subscribed counter, receive time) is appended to
    the subscriber's log only when the subscribed counter is greater than 0,
    and then subject to the capacity check; when it is 0 the subscriber's
    log is left as it is. *)
Theorem userApplicationPubSub_body_logging
    (cfg : config) (e : user_env) (s : timespec * globals) :
  enableCsvLog cfg = true ->
  let g := snd s in
  let g' := snd (userApplicationPubSub_body cfg e s) in
  (0 <= measurementsPublisher g < MAX_MEASUREMENTS ->
   publishCounterValue g' =
     <[measurementsPublisher g := wrap_u64 (pubCounterData g + 1)]> (publishCounterValue g) /\
   publishTimestamp g' =
     <[measurementsPublisher g := ue_modification_time e]> (publishTimestamp g) /\
   measurementsPublisher g' = measurementsPublisher g + 1) /\
  (MAX_MEASUREMENTS <= measurementsPublisher g ->
   publishCounterValue g' = publishCounterValue g /\
   publishTimestamp g' = publishTimestamp g /\
   measurementsPublisher g' = measurementsPublisher g /\
   running g' = false) /\
  (0 < subCounterData g -> 0 <= measurementsSubscriber g < MAX_MEASUREMENTS ->
   subscribeCounterValue g' =
     <[measurementsSubscriber g := subCounterData g]> (subscribeCounterValue g) /\
   subscribeTimestamp g' =
     <[measurementsSubscriber g := ue_receive_time e]> (subscribeTimestamp g) /\
   measurementsSubscriber g' = measurementsSubscriber g + 1) /\
  (0 < subCounterData g -> MAX_MEASUREMENTS <= measurementsSubscriber g ->
   subscribeCounterValue g' = subscribeCounterValue g /\
   subscribeTimestamp g' = subscribeTimestamp g /\
   measurementsSubscriber g' = measurementsSubscriber g /\
   running g' = false) /\
  (subCounterData g <= 0 ->
   subscribeCounterValue g' = subscribeCounterValue g /\
   subscribeTimestamp g' = subscribeTimestamp g /\
   measurementsSubscriber g' = measurementsSubscriber g).
Proof.
  intros Hlog g g'. unfold g', userApplicationPubSub_body. rewrite Hlog. fold g.
  cbn [snd]. unfold updateMeasurementsPublisher, updateMeasurementsSubscriber. simpl.
  destruct (Z.geb_spec (measurementsPublisher g) MAX_MEASUREMENTS) as [Hp|Hp]; simpl;
    destruct (Z.gtb_spec (subCounterData g) 0) as [Hs|Hs]; simpl;
    try (destruct (Z.geb_spec (measurementsSubscriber g) MAX_MEASUREMENTS) as [Hm|Hm]; simpl);
    repeat split; intros;
    try lia; try reflexivity;
    try (apply wrap_u64_id; unfold is_u64, MAX_MEASUREMENTS in *; lia).
Qed.

Lemma userApplicationPubSub_body_logging_witness :
  let cfg := set_enableCsvLog true default_config in
  let e := {| ue_signal := false; ue_received := None;
              ue_modification_time := {| tv_sec := 1005; tv_nsec := 75100 |};
              ue_receive_time := {| tv_sec := 1005; tv_nsec := 75200 |} |} in
  let s := ({| tv_sec := 1005; tv_nsec := 75000 |}, set_subCounterData 7 initial_globals) in
  let g := snd s in
  let g' := snd (userApplicationPubSub_body cfg e s) in
  (0 <= measurementsPublisher g < MAX_MEASUREMENTS ->
   publishCounterValue g' =
     <[measurementsPublisher g := wrap_u64 (pubCounterData g + 1)]> (publishCounterValue g) /\
   publishTimestamp g' =
     <[measurementsPublisher g := ue_modification_time e]> (publishTimestamp g) /\
   measurementsPublisher g' = measurementsPublisher g + 1) /\
  (MAX_MEASUREMENTS <= measurementsPublisher g ->
   publishCounterValue g' = publishCounterValue g /\
   publishTimestamp g' = publishTimestamp g /\
   measurementsPublisher g' = measurementsPublisher g /\
   running g' = false) /\
  (0 < subCounterData g -> 0 <= measurementsSubscriber g < MAX_MEASUREMENTS ->
   subscribeCounterValue g' =
     <[measurementsSubscriber g := subCounterData g]> (subscribeCounterValue g) /\
   subscribeTimestamp g' =
     <[measurementsSubscriber g := ue_receive_time e]> (subscribeTimestamp g) /\
   measurementsSubscriber g' = measurementsSubscriber g + 1) /\
  (0 < subCounterData g -> MAX_MEASUREMENTS <= measurementsSubscriber g ->
   subscribeCounterValue g' = subscribeCounterValue g /\
   subscribeTimestamp g' = subscribeTimestamp g /\
   measurementsSubscriber g' = measurementsSubscriber g /\
   running g' = false) /\
  (subCounterData g <= 0 ->
   subscribeCounterValue g' = subscribeCounterValue g /\
   subscribeTimestamp g' = subscribeTimestamp g /\
   measurementsSubscriber g' = measurementsSubscriber g).
Proof.
  intros cfg e s.
  apply (userApplicationPubSub_body_logging cfg e s).
  reflexivity.
Defined.

(** ** Start-up *)

Lemma process_options_interface opts : forall c c',
  (forall a, ~ In (opt_interface a) opts) ->
  process_options opts c = Some c' -> interface c' = interface c.
Proof.
  induction opts as [|o opts IH]; intros c c' Hno Hp.
  - simpl in Hp. congruence.
  - assert (Hno' : forall a, ~ In (opt_interface a) opts).
    { intros a Ha. apply (Hno a). right. assumption. }
    destruct o; simpl in Hp; try discriminate;
      try (rewrite (IH _ _ Hno' Hp); reflexivity).
    exfalso. apply (Hno optarg). left. reflexivity.
Qed.

(** C7.  [main] returns a non-zero status, before anything that starts a
    publisher, subscriber or user application thread, when no [-interface]
    option was given and when the configured cycle time is below 0.125 ms.
    When the options are accepted, the set-up succeeds and the server loop
    ends with a good status, [main] returns 0. *)
Theorem main_exit_status (opts : list cli_option) (env : main_env) :
  let status := fst (main opts env) in
  let events := snd (main opts env) in
  ((forall a, ~ In (opt_interface a) opts) ->
   status <> 0 /\ Forall (fun ev => starts_role_thread ev = false) events) /\
  (forall c, process_options opts default_config = Some c ->
             dbl_ltb (cycleTimeInMsec c) (dbl_lit 125 1000) = true ->
   status <> 0 /\ Forall (fun ev => starts_role_thread ev = false) events) /\
  (forall c, process_options opts default_config = Some c ->
             interface c <> None ->
             dbl_ltb (cycleTimeInMsec c) (dbl_lit 125 1000) = false ->
             env_transport_layers_allocated env = true ->
             r_setschedparam (env_user_thread env) = 0 ->
             r_setaffinity_np (env_user_thread env) = 0 ->
             env_server_run env = UA_STATUSCODE_GOOD ->
   status = 0).
Proof.
  intros status events. unfold status, events, main. split; [|split].
  - intros Hno. destruct (process_options opts default_config) as [c|] eqn:Hp.
    + rewrite (process_options_interface opts _ _ Hno Hp). simpl.
      split; [discriminate | repeat constructor].
    + simpl. split; [discriminate | repeat constructor].
  - intros c -> Hlt. destruct (interface c); rewrite ?Hlt; simpl;
      (split; [discriminate | repeat constructor]).
  - intros c -> Hif Hge Halloc Hsched Haff Hrun.
    destruct (interface c); [|congruence].
    rewrite Hge, Halloc. simpl negb. cbv iota.
    unfold threadCreation. rewrite Hsched, Haff, Hrun. simpl.
    destruct (negb (r_create (env_user_thread env) =? 0)); reflexivity.
Qed.

Lemma main_exit_status_witness :
  let env := {| env_transport_layers_allocated := true;
                env_user_thread := {| r_setschedparam := 0; r_setaffinity_np := 0;
                                      r_create := 0 |};
                env_server_run := 0; env_join := 0 |} in
  (fst (main [opt_cycleTimeInMsec (dbl_lit 5 10)] env) <> 0 /\
   Forall (fun ev => starts_role_thread ev = false)
     (snd (main [opt_cycleTimeInMsec (dbl_lit 5 10)] env))) /\
  (fst (main [opt_interface "eth0"; opt_cycleTimeInMsec (dbl_lit 1 10)] env) <> 0 /\
   Forall (fun ev => starts_role_thread ev = false)
     (snd (main [opt_interface "eth0"; opt_cycleTimeInMsec (dbl_lit 1 10)] env))) /\
  fst (main [opt_interface "eth0"; opt_cycleTimeInMsec (dbl_lit 5 10)] env) = 0.
Proof.
  intros env. split; [|split].
  - apply (proj1 (main_exit_status [opt_cycleTimeInMsec (dbl_lit 5 10)] env)).
    intros a [H|[]]. discriminate.
  - apply (proj1 (proj2 (main_exit_status
                           [opt_interface "eth0"; opt_cycleTimeInMsec (dbl_lit 1 10)] env))
             (set_cycleTimeInMsec (dbl_lit 1 10) (set_interface (Some "eth0") default_config)));
      reflexivity.
  - apply (proj2 (proj2 (main_exit_status
                           [opt_interface "eth0"; opt_cycleTimeInMsec (dbl_lit 5 10)] env))
             (set_cycleTimeInMsec (dbl_lit 5 10) (set_interface (Some "eth0") default_config)));
      try reflexivity.
    discriminate.
Defined.

Example main_rejects_cycle_time_0_1 :
  forall env,
    main [opt_interface "eth0"; opt_cycleTimeInMsec (dbl_lit 1 10)] env =
    (-1, [ev_log_error "Bad cycle time"; ev_usage]).
Proof. intros env. reflexivity. Qed.

Example main_rejects_missing_interface :
  forall env,
    main [opt_cycleTimeInMsec (dbl_lit 25 100); opt_enableCsvLog] env =
    (-1, [ev_log_error "Need a network interface to run"; ev_usage]).
Proof. intros env. reflexivity. Qed.

Example main_clean_shutdown :
  main [opt_interface "eth0"]
    {| env_transport_layers_allocated := true;
       env_user_thread := {| r_setschedparam := 0; r_setaffinity_np := 0; r_create := 0 |};
       env_server_run := 0; env_join := 0 |} =
  (0, [ev_addServerNodes; ev_setup_writer_group; ev_setup_reader_group;
       ev_pthread_create routine_userApplicationPubSub; ev_server_run;
       ev_pthread_join routine_userApplicationPubSub; ev_cleanup]).
Proof. reflexivity. Qed.

(** * Further properties *)

(** ** Time arithmetic *)

Lemma nanoSecondFieldConversion_result_small t :
  valid_timespec t -> tv_nsec (nanoSecondFieldConversion t) <= SECONDS - 1.
Proof.
  intros Hv. destruct (Z_lt_le_dec (tv_nsec t) 0) as [Hneg|Hpos].
  - rewrite nanoSecondFieldConversion_small by (unfold SECONDS; lia). unfold SECONDS. lia.
  - rewrite nanoSecondFieldConversion_spec by assumption. simpl.
    pose proof (Z.mod_pos_bound (tv_nsec t) SECONDS ltac:(reflexivity)). lia.
Qed.

(** X1.  Normalising twice is normalising once: the result of
    [nanoSecondFieldConversion] is a fixed point of it, whatever the sign of
    the nanosecond field was. *)
Theorem nanoSecondFieldConversion_idempotent (t : timespec) :
  valid_timespec t ->
  nanoSecondFieldConversion (nanoSecondFieldConversion t) = nanoSecondFieldConversion t.
Proof.
  intros Hv. apply nanoSecondFieldConversion_small.
  apply nanoSecondFieldConversion_result_small. assumption.
Qed.

Lemma nanoSecondFieldConversion_idempotent_witness :
  nanoSecondFieldConversion
    (nanoSecondFieldConversion {| tv_sec := 1700000000; tv_nsec := 3999999999 |}) =
  nanoSecondFieldConversion {| tv_sec := 1700000000; tv_nsec := 3999999999 |}.
Proof.
  apply (nanoSecondFieldConversion_idempotent {| tv_sec := 1700000000; tv_nsec := 3999999999 |}).
  split; unfold is_s64; simpl; lia.
Defined.

(** X2.  [nanoSecondFieldConversion] moves whole seconds between the two
    fields and never changes the instant [tv_sec * 10^9 + tv_nsec]: not as
    the unsigned 64-bit nanosecond count, and not as an exact integer when
    the resulting seconds fit [time_t] (for a negative nanosecond field
    nothing moves at all). *)
Theorem nanoSecondFieldConversion_same_instant (t : timespec) :
  valid_timespec t ->
  wrap_u64 (timespec_ns (nanoSecondFieldConversion t)) = wrap_u64 (timespec_ns t) /\
  (tv_sec t + tv_nsec t / 10 ^ 9 < 2 ^ 63 ->
   timespec_ns (nanoSecondFieldConversion t) = timespec_ns t).
Proof.
  intros Hv. split.
  - apply nanoSecondFieldConversion_ns_u64. assumption.
  - change (10 ^ 9) with SECONDS. intros Hfit.
    destruct (Z_lt_le_dec (tv_nsec t) 0) as [Hneg|Hpos].
    + rewrite nanoSecondFieldConversion_small by (unfold SECONDS; lia). reflexivity.
    + apply nanoSecondFieldConversion_ns_exact; assumption.
Qed.

Lemma nanoSecondFieldConversion_same_instant_witness :
  let t := {| tv_sec := 1700000000; tv_nsec := 3999999999 |} in
  wrap_u64 (timespec_ns (nanoSecondFieldConversion t)) = wrap_u64 (timespec_ns t) /\
  (tv_sec t + tv_nsec t / 10 ^ 9 < 2 ^ 63 ->
   timespec_ns (nanoSecondFieldConversion t) = timespec_ns t).
Proof.
  apply (nanoSecondFieldConversion_same_instant {| tv_sec := 1700000000; tv_nsec := 3999999999 |}).
  split; unfold is_s64; simpl; lia.
Defined.

Lemma nanoSecondFieldConversion_loop_short fuel : forall t,
  valid_timespec t -> Z.of_nat fuel < tv_nsec t / SECONDS ->
  nanoSecondFieldConversion_loop fuel t = None.
Proof.
  induction fuel as [|fuel IH]; intros t [Hs Hn] Hlt.
  - assert (Hge : SECONDS <= tv_nsec t).
    { destruct (Z_lt_le_dec (tv_nsec t) SECONDS) as [Hsmall|]; [|assumption].
      destruct (Z_lt_le_dec (tv_nsec t) 0) as [Hneg|Hpos].
      - pose proof (Z.div_lt_upper_bound (tv_nsec t) SECONDS 0 ltac:(reflexivity) ltac:(lia)).
        lia.
      - rewrite Z.div_small in Hlt by lia. simpl in Hlt. lia. }
    simpl. destruct (Z.gtb_spec (tv_nsec t) (SECONDS - 1)); [reflexivity | lia].
  - assert (Hge : SECONDS <= tv_nsec t).
    { destruct (Z_lt_le_dec (tv_nsec t) SECONDS) as [Hsmall|]; [|assumption].
      destruct (Z_lt_le_dec (tv_nsec t) 0) as [Hneg|Hpos].
      - pose proof (Z.div_lt_upper_bound (tv_nsec t) SECONDS 0 ltac:(reflexivity) ltac:(lia)).
        lia.
      - rewrite Z.div_small in Hlt by lia. lia. }
    rewrite nanoSecondFieldConversion_loop_step by lia. apply IH.
    + split; simpl; [apply wrap_s64_range|].
      rewrite wrap_s64_id; unfold is_s64, SECONDS in *; lia.
    + simpl. rewrite wrap_s64_id by (unfold is_s64, SECONDS in *; lia).
      replace (tv_nsec t - SECONDS) with (tv_nsec t + (-1) * SECONDS) by lia.
      rewrite Z.div_add by discriminate. lia.
Qed.

(** X3.  The loop of [nanoSecondFieldConversion] makes exactly
    [floor (n / 10^9)] iterations on a nanosecond field [n >= 0]: run with
    a bound on the iterations, it finishes if and only if the bound is at
    least that number. *)
Theorem nanoSecondFieldConversion_loop_iterations (fuel : nat) (t : timespec) :
  valid_timespec t -> 0 <= tv_nsec t ->
  (nanoSecondFieldConversion_loop fuel t = None <-> Z.of_nat fuel < tv_nsec t / 10 ^ 9).
Proof.
  intros Hv H0. change (10 ^ 9) with SECONDS. split.
  - intros Hnone. destruct (Z_lt_le_dec (Z.of_nat fuel) (tv_nsec t / SECONDS)) as [|Hge];
      [assumption|].
    rewrite nanoSecondFieldConversion_loop_spec in Hnone by assumption. discriminate.
  - apply nanoSecondFieldConversion_loop_short. assumption.
Qed.

Lemma nanoSecondFieldConversion_loop_iterations_witness :
  nanoSecondFieldConversion_loop 2 {| tv_sec := 1700000000; tv_nsec := 3999999999 |} = None <->
  Z.of_nat 2 < 3999999999 / 10 ^ 9.
Proof.
  apply (nanoSecondFieldConversion_loop_iterations 2
           {| tv_sec := 1700000000; tv_nsec := 3999999999 |}).
  - split; unfold is_s64; simpl; lia.
  - simpl; lia.
Defined.

(** ** The publisher and subscriber loops *)

Lemma dbl_to_slong_range f : is_s64 (dbl_to_slong f).
Proof.
  unfold dbl_to_slong, is_s64. destruct (dbl_trunc f) as [z|]; [|lia].
  destruct (Z.leb_spec (- 2 ^ 63) z), (Z.ltb_spec z (2 ^ 63)); simpl; lia.
Qed.

Lemma nanoSecondFieldConversion_normalised t :
  valid_timespec t -> 0 <= tv_nsec t ->
  valid_timespec (nanoSecondFieldConversion t) /\
  0 <= tv_nsec (nanoSecondFieldConversion t) < SECONDS.
Proof.
  intros Hv H0. split; [apply nanoSecondFieldConversion_valid; assumption|].
  rewrite nanoSecondFieldConversion_spec by assumption. simpl.
  apply Z.mod_pos_bound. reflexivity.
Qed.

Lemma advance_deadline_normalised P t :
  valid_timespec t -> 0 <= tv_nsec t < SECONDS -> 0 <= P <= 2 ^ 63 - SECONDS ->
  valid_timespec (advance_deadline (wrap_s64 P) t) /\
  0 <= tv_nsec (advance_deadline (wrap_s64 P) t) < SECONDS.
Proof.
  intros [Hs Hn] Hnorm HP. unfold advance_deadline.
  rewrite (wrap_s64_id P) by (unfold is_s64, SECONDS in *; lia).
  rewrite (wrap_s64_id (tv_nsec t + P)) by (unfold is_s64, SECONDS in *; lia).
  apply nanoSecondFieldConversion_normalised; simpl; [|lia].
  split; simpl; [assumption | unfold is_s64, SECONDS in *; lia].
Qed.

Lemma publisherETF_loop_normalised P roundOff qbv obs : forall next,
  valid_timespec next -> 0 <= tv_nsec next < SECONDS -> 0 <= P <= 2 ^ 63 - SECONDS ->
  Forall (fun c => valid_timespec (fst c) /\ 0 <= tv_nsec (fst c) < SECONDS)
    (publisherETF_loop P roundOff qbv obs next).
Proof.
  induction obs as [|[|] obs IH]; intros next Hv Hn HP; simpl; constructor.
  - split; assumption.
  - destruct (advance_deadline_normalised P next Hv Hn HP) as [Hv' Hn'].
    apply IH; assumption.
Qed.

Lemma subscriber_loop_normalised P obs : forall next,
  valid_timespec next -> 0 <= tv_nsec next < SECONDS -> 0 <= P <= 2 ^ 63 - SECONDS ->
  Forall (fun d => valid_timespec d /\ 0 <= tv_nsec d < SECONDS)
    (subscriber_loop P obs next).
Proof.
  induction obs as [|[|] obs IH]; intros next Hv Hn HP; simpl; constructor.
  - split; assumption.
  - destruct (advance_deadline_normalised P next Hv Hn HP) as [Hv' Hn'].
    apply IH; assumption.
Qed.

(** X4.  Every deadline the publisher thread and the subscriber thread pass
    to [clock_nanosleep] is a well-formed time, [0 <= tv_nsec < 10^9],
    however long the threads run.  What it takes: the clock reading is a
    pair of 64-bit values, the publisher's wake-up offset
    [(long)(cycleTimeInMsec * 1000 * 1000 * 0.6)] is not negative, and the
    interval in nanoseconds is at most [2^63 - 10^9]. *)
Theorem thread_deadlines_normalised
    (cfg : config) (arg : threadArg) (now : timespec) (obs : list bool) :
  valid_timespec now ->
  0 <= dbl_to_slong (dbl_mul (mul_MILLI_SECONDS (cycleTimeInMsec cfg)) pubWakeupPercentage) ->
  0 <= dbl_to_uint64 (mul_MILLI_SECONDS (interval_ms arg)) <= 2 ^ 63 - 10 ^ 9 ->
  Forall (fun c => valid_timespec (fst c) /\ 0 <= tv_nsec (fst c) < 10 ^ 9)
    (publisherETF cfg arg now obs) /\
  Forall (fun d => valid_timespec d /\ 0 <= tv_nsec d < 10 ^ 9)
    (subscriber arg now obs).
Proof.
  intros [Hs Hn] Hphase HP. change (10 ^ 9) with SECONDS in *.
  assert (Hfirst : forall nsec, 0 <= nsec -> is_s64 nsec ->
            let d := nanoSecondFieldConversion
                       {| tv_sec := wrap_s64 (tv_sec now + SECONDS_SLEEP); tv_nsec := nsec |} in
            valid_timespec d /\ 0 <= tv_nsec d < SECONDS).
  { intros nsec H0 Hr. apply nanoSecondFieldConversion_normalised; [|exact H0].
    split; [apply wrap_s64_range | exact Hr]. }
  split.
  - unfold publisherETF, publisherETF_first_deadline.
    destruct (Hfirst _ Hphase (dbl_to_slong_range _)) as [Hv0 Hn0].
    apply publisherETF_loop_normalised; assumption.
  - unfold subscriber, subscriber_first_deadline.
    assert (Hzero : dbl_to_slong subWakeupPercentage = 0) by reflexivity.
    rewrite Hzero.
    destruct (Hfirst 0 ltac:(lia) ltac:(unfold is_s64; lia)) as [Hv0 Hn0].
    apply subscriber_loop_normalised; assumption.
Qed.

Lemma thread_deadlines_normalised_witness :
  let arg := {| interval_ms := DEFAULT_CYCLE_TIME |} in
  let now := {| tv_sec := 1000; tv_nsec := 999999999 |} in
  let obs := [true; true; true; false] in
  Forall (fun c => valid_timespec (fst c) /\ 0 <= tv_nsec (fst c) < 10 ^ 9)
    (publisherETF default_config arg now obs) /\
  Forall (fun d => valid_timespec d /\ 0 <= tv_nsec d < 10 ^ 9)
    (subscriber arg now obs).
Proof.
  apply (thread_deadlines_normalised default_config {| interval_ms := DEFAULT_CYCLE_TIME |}
           {| tv_sec := 1000; tv_nsec := 999999999 |} [true; true; true; false]).
  - split; unfold is_s64; simpl; lia.
  - vm_compute. discriminate.
  - vm_compute. split; discriminate.
Defined.

(** X5.  Once [running] has been read as false at the loop test, the
    publisher and the subscriber thread fire no further cycle: whatever the
    flag would have read afterwards changes nothing, and the number of
    cycles is at most the number of loop tests that read true. *)
Theorem thread_loops_stop_when_not_running
    (P roundOff qbv : Z) (pre rest : list bool) (next : timespec) :
  publisherETF_loop P roundOff qbv (pre ++ false :: rest) next =
    publisherETF_loop P roundOff qbv pre next /\
  subscriber_loop P (pre ++ false :: rest) next = subscriber_loop P pre next /\
  (length (publisherETF_loop P roundOff qbv pre next) <= length pre)%nat /\
  (length (subscriber_loop P pre next) <= length pre)%nat.
Proof.
  revert next. induction pre as [|[|] pre IH]; intros next; simpl.
  - repeat split; lia.
  - destruct (IH (advance_deadline (wrap_s64 P) next)) as (-> & -> & H1 & H2).
    repeat split; lia.
  - repeat split; lia.
Qed.

(** X6.  From one cycle of the publisher to the next the transmission time
    handed to the transport grows by exactly the interval [P], in
    [UA_UInt64] arithmetic; and in each cycle it is the wake-up deadline
    plus [roundOffCycleTime] plus [qbvOffset * 1000] (a negative offset
    moves it back). *)
Theorem publisherETF_transmission_time_step
    (P roundOff qbv : Z) (next0 : timespec) (N k : nat) :
  valid_timespec next0 -> (S k < N)%nat ->
  exists d tx d' tx',
    publisherETF_loop P roundOff qbv (replicate N true) next0 !! k = Some (d, tx) /\
    publisherETF_loop P roundOff qbv (replicate N true) next0 !! S k = Some (d', tx') /\
    tx = wrap_u64 (timespec_ns d + roundOff + wrap_s32 (qbv * 1000)) /\
    tx' = wrap_u64 (tx + P).
Proof.
  intros Hv Hk.
  set (d := deadline_after (wrap_s64 P) k next0).
  set (d' := deadline_after (wrap_s64 P) (S k) next0).
  exists d, (transmission_time roundOff qbv d), d', (transmission_time roundOff qbv d').
  split; [apply publisherETF_loop_lookup; lia|].
  split; [apply publisherETF_loop_lookup; lia|].
  split; [apply transmission_time_spec|].
  rewrite !transmission_time_spec.
  assert (Hstep : wrap_u64 (timespec_ns d') = wrap_u64 (timespec_ns d + P)).
  { change d' with (advance_deadline (wrap_s64 P) d).
    apply advance_deadline_ns_u64. apply deadline_after_valid. assumption. }
  apply wrap_u64_eq_iff in Hstep. destruct Hstep as [q Hq].
  destruct (wrap_u64_cong (timespec_ns d + roundOff + wrap_s32 (qbv * 1000))) as [q' Hq'].
  apply wrap_u64_eq_iff. exists (q - q'). lia.
Qed.

Lemma publisherETF_transmission_time_step_witness :
  exists d tx d' tx',
    publisherETF_loop 250000 100000 (-125) (replicate 4 true)
      {| tv_sec := 1005; tv_nsec := 999900000 |} !! 1%nat = Some (d, tx) /\
    publisherETF_loop 250000 100000 (-125) (replicate 4 true)
      {| tv_sec := 1005; tv_nsec := 999900000 |} !! 2%nat = Some (d', tx') /\
    tx = wrap_u64 (timespec_ns d + 100000 + wrap_s32 (-125 * 1000)) /\
    tx' = wrap_u64 (tx + 250000).
Proof.
  apply (publisherETF_transmission_time_step 250000 100000 (-125)
           {| tv_sec := 1005; tv_nsec := 999900000 |} 4 1).
  - split; unfold is_s64; simpl; lia.
  - lia.
Defined.

Lemma subscriber_loop_length P N : forall next,
  length (subscriber_loop P (replicate N true) next) = N.
Proof. induction N as [|N IH]; intros next; simpl; [reflexivity | f_equal; apply IH]. Qed.

(** X7.  The subscriber thread keeps its period as the publisher does: in
    [N] cycles the deadline of cycle [k] is the first deadline plus
    [k * P], as the unsigned 64-bit nanosecond count without condition, and
    as the exact integer when the first deadline is normalised, [P] is at
    most [2^63 - 10^9] and the seconds stay within [time_t]. *)
Theorem subscriber_loop_no_drift (P : Z) (next0 : timespec) (N k : nat) :
  valid_timespec next0 -> (k < N)%nat ->
  exists d,
    length (subscriber_loop P (replicate N true) next0) = N /\
    subscriber_loop P (replicate N true) next0 !! k = Some d /\
    wrap_u64 (timespec_ns d) = wrap_u64 (timespec_ns next0 + Z.of_nat k * P) /\
    (0 <= tv_nsec next0 < 10 ^ 9 -> 0 <= P <= 2 ^ 63 - 10 ^ 9 ->
     tv_sec next0 + (tv_nsec next0 + Z.of_nat k * P) / 10 ^ 9 < 2 ^ 63 ->
     timespec_ns d = timespec_ns next0 + Z.of_nat k * P /\ 0 <= tv_nsec d < 10 ^ 9).
Proof.
  intros Hv Hk. exists (deadline_after (wrap_s64 P) k next0).
  split; [apply subscriber_loop_length|].
  split; [apply subscriber_loop_lookup; assumption|].
  split; [apply deadline_after_ns_u64; assumption|].
  change (10 ^ 9) with SECONDS. intros Hnorm HP Hfit.
  apply deadline_after_ns_exact; assumption.
Qed.

Lemma subscriber_loop_no_drift_witness :
  exists d,
    length (subscriber_loop 250000 (replicate 5 true) {| tv_sec := 1005; tv_nsec := 0 |}) = 5%nat /\
    subscriber_loop 250000 (replicate 5 true) {| tv_sec := 1005; tv_nsec := 0 |} !! 4%nat = Some d /\
    wrap_u64 (timespec_ns d) =
      wrap_u64 (timespec_ns {| tv_sec := 1005; tv_nsec := 0 |} + Z.of_nat 4 * 250000) /\
    (0 <= 0 < 10 ^ 9 -> 0 <= 250000 <= 2 ^ 63 - 10 ^ 9 ->
     1005 + (0 + Z.of_nat 4 * 250000) / 10 ^ 9 < 2 ^ 63 ->
     timespec_ns d = timespec_ns {| tv_sec := 1005; tv_nsec := 0 |} + Z.of_nat 4 * 250000 /\
     0 <= tv_nsec d < 10 ^ 9).
Proof.
  apply (subscriber_loop_no_drift 250000 {| tv_sec := 1005; tv_nsec := 0 |} 5 4).
  - split; unfold is_s64; simpl; lia.
  - lia.
Defined.

(** X8.  The first deadlines are anchored to whole seconds, so threads that
    read the clock in different seconds still run on one cycle grid when
    the period divides a second: for a period [P] with [10^9 mod P = 0],
    any deadline of the publisher and any deadline of the subscriber differ,
    modulo [P], by the difference of their wake-up offsets within the
    cycle. *)
Theorem publisher_subscriber_share_cycle_grid
    (P roundOff qbv : Z) (pub0 sub0 : timespec) (Np Ns k j : nat) :
  valid_timespec pub0 -> valid_timespec sub0 ->
  0 <= tv_nsec pub0 < 10 ^ 9 -> 0 <= tv_nsec sub0 < 10 ^ 9 ->
  0 < P <= 2 ^ 63 - 10 ^ 9 -> 10 ^ 9 mod P = 0 ->
  tv_sec pub0 + (tv_nsec pub0 + Z.of_nat k * P) / 10 ^ 9 < 2 ^ 63 ->
  tv_sec sub0 + (tv_nsec sub0 + Z.of_nat j * P) / 10 ^ 9 < 2 ^ 63 ->
  (k < Np)%nat -> (j < Ns)%nat ->
  exists dp tx ds,
    publisherETF_loop P roundOff qbv (replicate Np true) pub0 !! k = Some (dp, tx) /\
    subscriber_loop P (replicate Ns true) sub0 !! j = Some ds /\
    (timespec_ns dp - timespec_ns ds) mod P = (tv_nsec pub0 - tv_nsec sub0) mod P.
Proof.
  change (10 ^ 9) with SECONDS.
  intros Hvp Hvs Hnp Hns HP Hdiv Hfp Hfs Hk Hj.
  exists (deadline_after (wrap_s64 P) k pub0),
         (transmission_time roundOff qbv (deadline_after (wrap_s64 P) k pub0)),
         (deadline_after (wrap_s64 P) j sub0).
  split; [apply publisherETF_loop_lookup; assumption|].
  split; [apply subscriber_loop_lookup; assumption|].
  destruct (deadline_after_ns_exact P k pub0 Hvp Hnp ltac:(lia) Hfp) as [-> _].
  destruct (deadline_after_ns_exact P j sub0 Hvs Hns ltac:(lia) Hfs) as [-> _].
  apply Z.mod_divide in Hdiv; [|lia]. destruct Hdiv as [m Hm].
  unfold timespec_ns. rewrite Hm.
  replace (tv_sec pub0 * (m * P) + tv_nsec pub0 + Z.of_nat k * P
           - (tv_sec sub0 * (m * P) + tv_nsec sub0 + Z.of_nat j * P))
    with (tv_nsec pub0 - tv_nsec sub0
          + ((tv_sec pub0 - tv_sec sub0) * m + Z.of_nat k - Z.of_nat j) * P) by lia.
  apply Z.mod_add. lia.
Qed.

Lemma publisher_subscriber_share_cycle_grid_witness :
  exists dp tx ds,
    publisherETF_loop 250000 100000 125 (replicate 9 true)
      {| tv_sec := 1005; tv_nsec := 150000 |} !! 7%nat = Some (dp, tx) /\
    subscriber_loop 250000 (replicate 3 true) {| tv_sec := 1007; tv_nsec := 0 |} !! 2%nat
      = Some ds /\
    (timespec_ns dp - timespec_ns ds) mod 250000 = (150000 - 0) mod 250000.
Proof.
  apply (publisher_subscriber_share_cycle_grid 250000 100000 125
           {| tv_sec := 1005; tv_nsec := 150000 |} {| tv_sec := 1007; tv_nsec := 0 |} 9 3 7 2).
  - split; unfold is_s64; simpl; lia.
  - split; unfold is_s64; simpl; lia.
  - simpl; lia.
  - simpl; lia.
  - lia.
  - reflexivity.
  - reflexivity.
  - reflexivity.
  - lia.
  - lia.
Defined.

(** With a period that does not divide a second the grid is lost when the
    seconds differ: 0.3 ms, the subscriber started one second later. *)
Example cycle_grid_lost_when_period_does_not_divide_second :
  exists dp tx ds,
    publisherETF_loop 300000 120000 125 [true] {| tv_sec := 1005; tv_nsec := 180000 |}
      = [(dp, tx)] /\
    subscriber_loop 300000 [true] {| tv_sec := 1006; tv_nsec := 0 |} = [ds] /\
    (timespec_ns dp - timespec_ns ds) mod 300000 <> (180000 - 0) mod 300000.
Proof. do 3 eexists. split; [reflexivity|]. split; [reflexivity|]. vm_compute. discriminate. Qed.

(** ** Measurement logs, any number of calls *)

Lemma updateMeasurementsPublisher_calls_beyond calls g capacity :
  Z.of_nat capacity = MAX_MEASUREMENTS ->
  measurementsPublisher g = 0 -> publishCounterValue g = ∅ -> publishTimestamp g = ∅ ->
  forall d,
    updateMeasurementsPublisher_calls calls (S capacity + d) g =
    set_running false (updateMeasurementsPublisher_calls calls capacity g).
Proof.
  intros Hcap Hc Hv Ht.
  destruct (updateMeasurementsPublisher_calls_room calls g capacity Hc Hv Ht ltac:(lia))
    as (Hcount & _).
  induction d as [|d IH].
  - rewrite Nat.add_0_r. simpl. apply updateMeasurementsPublisher_full. lia.
  - replace (S capacity + S d)%nat with (S (S capacity + d)) by lia.
    cbn [updateMeasurementsPublisher_calls]. rewrite IH.
    rewrite updateMeasurementsPublisher_full by (simpl; lia). reflexivity.
Qed.

(** After any number [n] of calls on an empty log: the first
    [min n MAX_MEASUREMENTS] calls are stored. *)
Lemma updateMeasurementsPublisher_calls_min calls g capacity n :
  Z.of_nat capacity = MAX_MEASUREMENTS ->
  measurementsPublisher g = 0 -> publishCounterValue g = ∅ -> publishTimestamp g = ∅ ->
  let g' := updateMeasurementsPublisher_calls calls n g in
  measurementsPublisher g' = Z.of_nat (Nat.min n capacity) /\
  log_holds (publishCounterValue g') (Nat.min n capacity) (fun i => snd (calls i)) /\
  log_holds (publishTimestamp g') (Nat.min n capacity) (fun i => fst (calls i)) /\
  running g' = (running g && (n <=? capacity)%nat)%bool.
Proof.
  intros Hcap Hc Hv Ht. destruct (le_lt_dec n capacity) as [Hle|Hgt].
  - rewrite Nat.min_l by assumption.
    destruct (updateMeasurementsPublisher_calls_room calls g n Hc Hv Ht ltac:(lia))
      as (H1 & H2 & H3 & H4).
    cbv zeta. rewrite H4. destruct (Nat.leb_spec n capacity); [|lia].
    rewrite andb_true_r. repeat split; (assumption || apply H2 || apply H3).
  - rewrite Nat.min_r by lia.
    replace n with (S capacity + (n - S capacity))%nat by lia.
    cbv zeta. rewrite (updateMeasurementsPublisher_calls_beyond calls g capacity Hcap Hc Hv Ht).
    destruct (updateMeasurementsPublisher_calls_room calls g capacity Hc Hv Ht ltac:(lia))
      as (H1 & H2 & H3 & H4).
    destruct (Nat.leb_spec (S capacity + (n - S capacity)) capacity); [lia|].
    rewrite andb_false_r. simpl. repeat split; (assumption || apply H2 || apply H3).
Qed.

Lemma updateMeasurementsSubscriber_calls_beyond calls g capacity :
  Z.of_nat capacity = MAX_MEASUREMENTS ->
  measurementsSubscriber g = 0 -> subscribeCounterValue g = ∅ -> subscribeTimestamp g = ∅ ->
  forall d,
    updateMeasurementsSubscriber_calls calls (S capacity + d) g =
    set_running false (updateMeasurementsSubscriber_calls calls capacity g).
Proof.
  intros Hcap Hc Hv Ht.
  destruct (updateMeasurementsSubscriber_calls_room calls g capacity Hc Hv Ht ltac:(lia))
    as (Hcount & _).
  induction d as [|d IH].
  - rewrite Nat.add_0_r. simpl. apply updateMeasurementsSubscriber_full. lia.
  - replace (S capacity + S d)%nat with (S (S capacity + d)) by lia.
    cbn [updateMeasurementsSubscriber_calls]. rewrite IH.
    rewrite updateMeasurementsSubscriber_full by (simpl; lia). reflexivity.
Qed.

(** After any number [n] of calls on an empty log: the first
    [min n MAX_MEASUREMENTS] calls are stored. *)
Lemma updateMeasurementsSubscriber_calls_min calls g capacity n :
  Z.of_nat capacity = MAX_MEASUREMENTS ->
  measurementsSubscriber g = 0 -> subscribeCounterValue g = ∅ -> subscribeTimestamp g = ∅ ->
  let g' := updateMeasurementsSubscriber_calls calls n g in
  measurementsSubscriber g' = Z.of_nat (Nat.min n capacity) /\
  log_holds (subscribeCounterValue g') (Nat.min n capacity) (fun i => snd (calls i)) /\
  log_holds (subscribeTimestamp g') (Nat.min n capacity) (fun i => fst (calls i)) /\
  running g' = (running g && (n <=? capacity)%nat)%bool.
Proof.
  intros Hcap Hc Hv Ht. destruct (le_lt_dec n capacity) as [Hle|Hgt].
  - rewrite Nat.min_l by assumption.
    destruct (updateMeasurementsSubscriber_calls_room calls g n Hc Hv Ht ltac:(lia))
      as (H1 & H2 & H3 & H4).
    cbv zeta. rewrite H4. destruct (Nat.leb_spec n capacity); [|lia].
    rewrite andb_true_r. repeat split; (assumption || apply H2 || apply H3).
  - rewrite Nat.min_r by lia.
    replace n with (S capacity + (n - S capacity))%nat by lia.
    cbv zeta. rewrite (updateMeasurementsSubscriber_calls_beyond calls g capacity Hcap Hc Hv Ht).
    destruct (updateMeasurementsSubscriber_calls_room calls g capacity Hc Hv Ht ltac:(lia))
      as (H1 & H2 & H3 & H4).
    destruct (Nat.leb_spec (S capacity + (n - S capacity)) capacity); [lia|].
    rewrite andb_false_r. simpl. repeat split; (assumption || apply H2 || apply H3).
Qed.

(** X9.  After any number [n] of append calls on an empty log, the count is
    [min n MAX_MEASUREMENTS], the log holds exactly the values and the
    timestamps of the first [min n MAX_MEASUREMENTS] calls in call order,
    and [running] has been cleared if and only if more than
    [MAX_MEASUREMENTS] calls were made.  This holds of the publisher's log
    and of the subscriber's. *)
Theorem updateMeasurements_calls_saturate (calls : nat -> timespec * Z) (g : globals) (n : nat) :
  measurementsPublisher g = 0 -> publishCounterValue g = ∅ -> publishTimestamp g = ∅ ->
  measurementsSubscriber g = 0 -> subscribeCounterValue g = ∅ -> subscribeTimestamp g = ∅ ->
  let stored := Nat.min n (Z.to_nat MAX_MEASUREMENTS) in
  (let g' := updateMeasurementsPublisher_calls calls n g in
   measurementsPublisher g' = Z.of_nat stored /\
   log_holds (publishCounterValue g') stored (fun i => snd (calls i)) /\
   log_holds (publishTimestamp g') stored (fun i => fst (calls i)) /\
   running g' = (running g && (Z.of_nat n <=? MAX_MEASUREMENTS))%bool) /\
  (let g' := updateMeasurementsSubscriber_calls calls n g in
   measurementsSubscriber g' = Z.of_nat stored /\
   log_holds (subscribeCounterValue g') stored (fun i => snd (calls i)) /\
   log_holds (subscribeTimestamp g') stored (fun i => fst (calls i)) /\
   running g' = (running g && (Z.of_nat n <=? MAX_MEASUREMENTS))%bool).
Proof.
  intros Hpc Hpv Hpt Hsc Hsv Hst.
  pose proof MAX_MEASUREMENTS_nat as Hcap.
  generalize dependent (Z.to_nat MAX_MEASUREMENTS). intros capacity Hcap stored.
  assert (Hleb : (Z.of_nat n <=? MAX_MEASUREMENTS) = (n <=? capacity)%nat).
  { destruct (Z.leb_spec (Z.of_nat n) MAX_MEASUREMENTS), (Nat.leb_spec n capacity);
      (reflexivity || lia). }
  rewrite Hleb. split.
  - exact (updateMeasurementsPublisher_calls_min calls g capacity n Hcap Hpc Hpv Hpt).
  - exact (updateMeasurementsSubscriber_calls_min calls g capacity n Hcap Hsc Hsv Hst).
Qed.

Lemma updateMeasurements_calls_saturate_witness :
  let calls := fun i : nat => ({| tv_sec := 1005; tv_nsec := Z.of_nat i |}, Z.of_nat i + 1) in
  let g := initial_globals in
  let n := 3%nat in
  let stored := Nat.min n (Z.to_nat MAX_MEASUREMENTS) in
  (let g' := updateMeasurementsPublisher_calls calls n g in
   measurementsPublisher g' = Z.of_nat stored /\
   log_holds (publishCounterValue g') stored (fun i => snd (calls i)) /\
   log_holds (publishTimestamp g') stored (fun i => fst (calls i)) /\
   running g' = (running g && (Z.of_nat n <=? MAX_MEASUREMENTS))%bool) /\
  (let g' := updateMeasurementsSubscriber_calls calls n g in
   measurementsSubscriber g' = Z.of_nat stored /\
   log_holds (subscribeCounterValue g') stored (fun i => snd (calls i)) /\
   log_holds (subscribeTimestamp g') stored (fun i => fst (calls i)) /\
   running g' = (running g && (Z.of_nat n <=? MAX_MEASUREMENTS))%bool).
Proof.
  apply (updateMeasurements_calls_saturate
           (fun i : nat => ({| tv_sec := 1005; tv_nsec := Z.of_nat i |}, Z.of_nat i + 1))
           initial_globals 3); reflexivity.
Defined.

Lemma updateMeasurementsPublisher_calls_keep calls g n :
  0 <= measurementsPublisher g <= MAX_MEASUREMENTS ->
  let g' := updateMeasurementsPublisher_calls calls n g in
  measurementsPublisher g <= measurementsPublisher g' <= MAX_MEASUREMENTS /\
  (forall i, i < measurementsPublisher g \/ MAX_MEASUREMENTS <= i ->
     publishCounterValue g' !! i = publishCounterValue g !! i /\
     publishTimestamp g' !! i = publishTimestamp g !! i) /\
  subscribeCounterValue g' = subscribeCounterValue g /\
  subscribeTimestamp g' = subscribeTimestamp g /\
  measurementsSubscriber g' = measurementsSubscriber g.
Proof.
  intros Hc. induction n as [|n IH]; cbn [updateMeasurementsPublisher_calls]; cbv zeta.
  - split; [lia|]. split; [intros; split; reflexivity|]. repeat split.
  - cbv zeta in IH. destruct IH as (Hcount & Hkeep & Ho1 & Ho2 & Ho3).
    set (gn := updateMeasurementsPublisher_calls calls n g) in *.
    destruct (Z_lt_le_dec (measurementsPublisher gn) MAX_MEASUREMENTS) as [Hroom|Hfull].
    + rewrite updateMeasurementsPublisher_room by lia. simpl.
      split; [lia|]. split; [|repeat split; assumption].
      intros i Hi. rewrite !lookup_insert_ne by lia. apply Hkeep. assumption.
    + rewrite updateMeasurementsPublisher_full by lia. simpl.
      split; [lia|]. split; [|repeat split; assumption].
      intros i Hi. apply Hkeep. assumption.
Qed.

Lemma updateMeasurementsSubscriber_calls_keep calls g n :
  0 <= measurementsSubscriber g <= MAX_MEASUREMENTS ->
  let g' := updateMeasurementsSubscriber_calls calls n g in
  measurementsSubscriber g <= measurementsSubscriber g' <= MAX_MEASUREMENTS /\
  (forall i, i < measurementsSubscriber g \/ MAX_MEASUREMENTS <= i ->
     subscribeCounterValue g' !! i = subscribeCounterValue g !! i /\
     subscribeTimestamp g' !! i = subscribeTimestamp g !! i) /\
  publishCounterValue g' = publishCounterValue g /\
  publishTimestamp g' = publishTimestamp g /\
  measurementsPublisher g' = measurementsPublisher g.
Proof.
  intros Hc. induction n as [|n IH]; cbn [updateMeasurementsSubscriber_calls]; cbv zeta.
  - split; [lia|]. split; [intros; split; reflexivity|]. repeat split.
  - cbv zeta in IH. destruct IH as (Hcount & Hkeep & Ho1 & Ho2 & Ho3).
    set (gn := updateMeasurementsSubscriber_calls calls n g) in *.
    destruct (Z_lt_le_dec (measurementsSubscriber gn) MAX_MEASUREMENTS) as [Hroom|Hfull].
    + rewrite updateMeasurementsSubscriber_room by lia. simpl.
      split; [lia|]. split; [|repeat split; assumption].
      intros i Hi. rewrite !lookup_insert_ne by lia. apply Hkeep. assumption.
    + rewrite updateMeasurementsSubscriber_full by lia. simpl.
      split; [lia|]. split; [|repeat split; assumption].
      intros i Hi. apply Hkeep. assumption.
Qed.

(** X10.  The logs are append-only and bounded, from any state whose count
    is within [0, MAX_MEASUREMENTS]: a series of append calls never lowers
    the count and never takes it past [MAX_MEASUREMENTS], never changes an
    entry below the count it started from, never writes at an index
    [MAX_MEASUREMENTS] or above, and calls on one log leave the other log
    untouched. *)
Theorem updateMeasurements_calls_append_only
    (calls : nat -> timespec * Z) (g : globals) (n : nat) :
  0 <= measurementsPublisher g <= MAX_MEASUREMENTS ->
  0 <= measurementsSubscriber g <= MAX_MEASUREMENTS ->
  (let g' := updateMeasurementsPublisher_calls calls n g in
   measurementsPublisher g <= measurementsPublisher g' <= MAX_MEASUREMENTS /\
   (forall i, i < measurementsPublisher g \/ MAX_MEASUREMENTS <= i ->
      publishCounterValue g' !! i = publishCounterValue g !! i /\
      publishTimestamp g' !! i = publishTimestamp g !! i) /\
   subscribeCounterValue g' = subscribeCounterValue g /\
   subscribeTimestamp g' = subscribeTimestamp g /\
   measurementsSubscriber g' = measurementsSubscriber g) /\
  (let g' := updateMeasurementsSubscriber_calls calls n g in
   measurementsSubscriber g <= measurementsSubscriber g' <= MAX_MEASUREMENTS /\
   (forall i, i < measurementsSubscriber g \/ MAX_MEASUREMENTS <= i ->
      subscribeCounterValue g' !! i = subscribeCounterValue g !! i /\
      subscribeTimestamp g' !! i = subscribeTimestamp g !! i) /\
   publishCounterValue g' = publishCounterValue g /\
   publishTimestamp g' = publishTimestamp g /\
   measurementsPublisher g' = measurementsPublisher g).
Proof.
  intros Hp Hs. split.
  - exact (updateMeasurementsPublisher_calls_keep calls g n Hp).
  - exact (updateMeasurementsSubscriber_calls_keep calls g n Hs).
Qed.

Lemma updateMeasurements_calls_append_only_witness :
  let calls := fun i : nat => ({| tv_sec := 1005; tv_nsec := Z.of_nat i |}, Z.of_nat i + 1) in
  let g := updateMeasurementsSubscriber {| tv_sec := 1004; tv_nsec := 5 |} 70
             (updateMeasurementsPublisher {| tv_sec := 1004; tv_nsec := 0 |} 77 initial_globals) in
  let n := 2%nat in
  (let g' := updateMeasurementsPublisher_calls calls n g in
   measurementsPublisher g <= measurementsPublisher g' <= MAX_MEASUREMENTS /\
   (forall i, i < measurementsPublisher g \/ MAX_MEASUREMENTS <= i ->
      publishCounterValue g' !! i = publishCounterValue g !! i /\
      publishTimestamp g' !! i = publishTimestamp g !! i) /\
   subscribeCounterValue g' = subscribeCounterValue g /\
   subscribeTimestamp g' = subscribeTimestamp g /\
   measurementsSubscriber g' = measurementsSubscriber g) /\
  (let g' := updateMeasurementsSubscriber_calls calls n g in
   measurementsSubscriber g <= measurementsSubscriber g' <= MAX_MEASUREMENTS /\
   (forall i, i < measurementsSubscriber g \/ MAX_MEASUREMENTS <= i ->
      subscribeCounterValue g' !! i = subscribeCounterValue g !! i /\
      subscribeTimestamp g' !! i = subscribeTimestamp g !! i) /\
   publishCounterValue g' = publishCounterValue g /\
   publishTimestamp g' = publishTimestamp g /\
   measurementsPublisher g' = measurementsPublisher g).
Proof.
  intros calls g n.
  apply (updateMeasurements_calls_append_only calls g n); vm_compute; split; discriminate.
Defined.

Lemma csv_rows_log_holds values stamps m (fv : nat -> Z) (ft : nat -> timespec) :
  log_holds values m fv -> log_holds stamps m ft ->
  csv_rows values stamps (Z.of_nat m) =
  map (fun i => (wrap_s64 (fv i), tv_sec (ft i), tv_nsec (ft i))) (seq 0 m).
Proof.
  intros [_ Hv] [_ Ht]. unfold csv_rows. rewrite Nat2Z.id.
  apply map_ext_in. intros i Hi. apply in_seq in Hi.
  rewrite Hv, Ht. destruct (decide (0 <= Z.of_nat i < Z.of_nat m)); [|lia].
  rewrite Nat2Z.id. reflexivity.
Qed.

(** X11.  What was appended is what is written out.  After any number [n]
    of append calls on an empty log, the rows [main] prints to the CSV file
    are those of the first [min n MAX_MEASUREMENTS] calls, in call order,
    one row per call, so there are never more than [MAX_MEASUREMENTS]
    rows.  A row shows the seconds and nanoseconds of the call's timestamp,
    and the call's counter value as [%ld] prints it: the [long] with the
    same 64 bits, which is the counter itself when it is below [2^63] and
    the counter minus [2^64] from there on. *)
Theorem csv_rows_after_calls (calls : nat -> timespec * Z) (g : globals) (n : nat) :
  measurementsPublisher g = 0 -> publishCounterValue g = ∅ -> publishTimestamp g = ∅ ->
  measurementsSubscriber g = 0 -> subscribeCounterValue g = ∅ -> subscribeTimestamp g = ∅ ->
  let stored := Nat.min n (Z.to_nat MAX_MEASUREMENTS) in
  let rows :=
    map (fun i => (wrap_s64 (snd (calls i)), tv_sec (fst (calls i)), tv_nsec (fst (calls i))))
      (seq 0 stored) in
  publisher_csv_rows (updateMeasurementsPublisher_calls calls n g) = rows /\
  subscriber_csv_rows (updateMeasurementsSubscriber_calls calls n g) = rows /\
  Z.of_nat (length rows) <= MAX_MEASUREMENTS /\
  (forall v, 0 <= v < 2 ^ 63 -> wrap_s64 v = v) /\
  (forall v, 2 ^ 63 <= v < 2 ^ 64 -> wrap_s64 v = v - 2 ^ 64).
Proof.
  intros Hpc Hpv Hpt Hsc Hsv Hst.
  pose proof MAX_MEASUREMENTS_nat as Hcap.
  generalize dependent (Z.to_nat MAX_MEASUREMENTS). intros capacity Hcap stored rows.
  destruct (updateMeasurementsPublisher_calls_min calls g capacity n Hcap Hpc Hpv Hpt)
    as (Hp1 & Hp2 & Hp3 & _).
  destruct (updateMeasurementsSubscriber_calls_min calls g capacity n Hcap Hsc Hsv Hst)
    as (Hs1 & Hs2 & Hs3 & _).
  split; [|split; [|split; [|split]]].
  - unfold publisher_csv_rows. rewrite Hp1. apply (csv_rows_log_holds _ _ _ _ _ Hp2 Hp3).
  - unfold subscriber_csv_rows. rewrite Hs1. apply (csv_rows_log_holds _ _ _ _ _ Hs2 Hs3).
  - unfold rows. rewrite length_map, length_seq. unfold stored. lia.
  - intros v Hv. apply wrap_s64_id. unfold is_s64. lia.
  - intros v Hv. unfold wrap_s64.
    replace (v + 2 ^ 63) with (v - 2 ^ 63 + 1 * 2 ^ 64) by lia.
    rewrite Z.mod_add by lia. rewrite Z.mod_small by lia. lia.
Qed.

Lemma csv_rows_after_calls_witness :
  let calls := fun i : nat =>
                 ({| tv_sec := 1005; tv_nsec := Z.of_nat i |}, 2 ^ 64 - 1 - Z.of_nat i) in
  let g := initial_globals in
  let n := 3%nat in
  let stored := Nat.min n (Z.to_nat MAX_MEASUREMENTS) in
  let rows :=
    map (fun i => (wrap_s64 (snd (calls i)), tv_sec (fst (calls i)), tv_nsec (fst (calls i))))
      (seq 0 stored) in
  publisher_csv_rows (updateMeasurementsPublisher_calls calls n g) = rows /\
  subscriber_csv_rows (updateMeasurementsSubscriber_calls calls n g) = rows /\
  Z.of_nat (length rows) <= MAX_MEASUREMENTS /\
  (forall v, 0 <= v < 2 ^ 63 -> wrap_s64 v = v) /\
  (forall v, 2 ^ 63 <= v < 2 ^ 64 -> wrap_s64 v = v - 2 ^ 64).
Proof.
  apply (csv_rows_after_calls
           (fun i : nat =>
              ({| tv_sec := 1005; tv_nsec := Z.of_nat i |}, 2 ^ 64 - 1 - Z.of_nat i))
           initial_globals 3); reflexivity.
Defined.

(** A counter of [2^64 - 1] appears in the file as [-1]. *)
Example csv_row_of_largest_counter :
  publisher_csv_rows
    (updateMeasurementsPublisher {| tv_sec := 1005; tv_nsec := 75100 |} (2 ^ 64 - 1)
       initial_globals)
  = [(-1, 1005, 75100)].
Proof. vm_compute. reflexivity. Qed.

(** ** The user application loop *)

Lemma user_env_apply_frame e g :
  publishCounterValue (user_env_apply e g) = publishCounterValue g /\
  publishTimestamp (user_env_apply e g) = publishTimestamp g /\
  measurementsPublisher (user_env_apply e g) = measurementsPublisher g /\
  subscribeCounterValue (user_env_apply e g) = subscribeCounterValue g /\
  subscribeTimestamp (user_env_apply e g) = subscribeTimestamp g /\
  measurementsSubscriber (user_env_apply e g) = measurementsSubscriber g /\
  (running g = false -> running (user_env_apply e g) = false) /\
  (ue_signal e = true -> running (user_env_apply e g) = false).
Proof.
  unfold user_env_apply. destruct (ue_signal e), (ue_received e); simpl;
    repeat split; intros; (assumption || discriminate || reflexivity).
Qed.

(** The publisher's log and [running] across one loop body with logging
    enabled. *)
Lemma userApplicationPubSub_body_publisher_log cfg e s :
  enableCsvLog cfg = true ->
  let g := snd s in
  let g' := snd (userApplicationPubSub_body cfg e s) in
  (0 <= measurementsPublisher g < MAX_MEASUREMENTS ->
   publishCounterValue g' =
     <[measurementsPublisher g := wrap_u64 (pubCounterData g + 1)]> (publishCounterValue g) /\
   publishTimestamp g' =
     <[measurementsPublisher g := ue_modification_time e]> (publishTimestamp g) /\
   measurementsPublisher g' = measurementsPublisher g + 1) /\
  (MAX_MEASUREMENTS <= measurementsPublisher g ->
   measurementsPublisher g' = measurementsPublisher g /\ running g' = false) /\
  (running g = false -> running g' = false).
Proof.
  intros Hlog g g'. unfold g', userApplicationPubSub_body. rewrite Hlog. fold g.
  cbn [snd]. unfold updateMeasurementsPublisher, updateMeasurementsSubscriber. simpl.
  destruct (Z.geb_spec (measurementsPublisher g) MAX_MEASUREMENTS) as [Hp|Hp]; simpl;
    destruct (Z.gtb_spec (subCounterData g) 0) as [Hs|Hs]; simpl;
    try (destruct (Z.geb_spec (measurementsSubscriber g) MAX_MEASUREMENTS) as [Hm|Hm]; simpl);
    repeat split; intros;
    try lia; try reflexivity; try assumption;
    try (apply wrap_u64_id; unfold is_u64, MAX_MEASUREMENTS in *; lia).
Qed.

Lemma userApplicationPubSub_loop_not_running cfg envs : forall s,
  running (snd s) = false ->
  userApplicationPubSub_loop cfg envs s =
  (O, match envs with [] => s | e :: _ => (fst s, user_env_apply e (snd s)) end).
Proof.
  destruct envs as [|e envs]; intros s Hrun; [reflexivity|].
  cbn [userApplicationPubSub_loop].
  destruct (user_env_apply_frame e (snd s)) as (_ & _ & _ & _ & _ & _ & Hstay & _).
  rewrite (Hstay Hrun). reflexivity.
Qed.

(** X12.  A stop request is honoured at the next loop test and cannot be
    taken back: when [running] is already false, or the signal handler has
    run before the test, the user application makes no further iteration,
    whatever happens afterwards; the deadline, the producer counters and
    both logs stay as they were, and [running] stays false. *)
Theorem userApplicationPubSub_loop_stopped
    (cfg : config) (e : user_env) (envs : list user_env) (s : timespec * globals) :
  running (snd s) = false \/ ue_signal e = true ->
  let r := userApplicationPubSub_loop cfg (e :: envs) s in
  fst r = O /\
  fst (snd r) = fst s /\
  running (snd (snd r)) = false /\
  pubCounterData (snd (snd r)) = pubCounterData (snd s) /\
  repeatedCounterData (snd (snd r)) = repeatedCounterData (snd s) /\
  publisher_csv_rows (snd (snd r)) = publisher_csv_rows (snd s) /\
  subscriber_csv_rows (snd (snd r)) = subscriber_csv_rows (snd s).
Proof.
  intros Hstop r. unfold r. cbn [userApplicationPubSub_loop].
  destruct (user_env_apply_frame e (snd s))
    as (H1 & H2 & H3 & H4 & H5 & H6 & Hstay & Hsig).
  destruct (user_env_apply_counters e (snd s)) as [Hc1 Hc2].
  assert (Hrun : running (user_env_apply e (snd s)) = false).
  { destruct Hstop as [Hf|Hs]; [apply Hstay | apply Hsig]; assumption. }
  rewrite Hrun. cbn [fst snd]. unfold publisher_csv_rows, subscriber_csv_rows.
  rewrite H1, H2, H3, H4, H5, H6. repeat split; assumption.
Qed.

Lemma userApplicationPubSub_loop_stopped_witness :
  let e := {| ue_signal := true; ue_received := Some 7;
              ue_modification_time := {| tv_sec := 1005; tv_nsec := 75100 |};
              ue_receive_time := {| tv_sec := 1005; tv_nsec := 75200 |} |} in
  let s := ({| tv_sec := 1005; tv_nsec := 75000 |}, initial_globals) in
  let r := userApplicationPubSub_loop default_config [e; e] s in
  fst r = O /\
  fst (snd r) = fst s /\
  running (snd (snd r)) = false /\
  pubCounterData (snd (snd r)) = pubCounterData (snd s) /\
  repeatedCounterData (snd (snd r)) = repeatedCounterData (snd s) /\
  publisher_csv_rows (snd (snd r)) = publisher_csv_rows (snd s) /\
  subscriber_csv_rows (snd (snd r)) = subscriber_csv_rows (snd s).
Proof.
  intros e s.
  apply (userApplicationPubSub_loop_stopped default_config e [e] s).
  right. reflexivity.
Defined.

Lemma userApplicationPubSub_loop_bound cfg envs : forall s,
  enableCsvLog cfg = true ->
  0 <= measurementsPublisher (snd s) <= MAX_MEASUREMENTS ->
  Z.of_nat (fst (userApplicationPubSub_loop cfg envs s))
  <= MAX_MEASUREMENTS - measurementsPublisher (snd s) + 1.
Proof.
  induction envs as [|e envs IH]; intros s Hlog Hm.
  - simpl. lia.
  - cbn [userApplicationPubSub_loop].
    destruct (user_env_apply_frame e (snd s)) as (_ & _ & Hcount & _).
    destruct (running (user_env_apply e (snd s))) eqn:Hrun; [|simpl; lia].
    cbn [fst].
    destruct (userApplicationPubSub_body_publisher_log cfg e
                (fst s, user_env_apply e (snd s)) Hlog) as (Hroom & Hfull & _).
    cbn [snd] in Hroom, Hfull. rewrite Hcount in Hroom, Hfull.
    destruct (Z_lt_le_dec (measurementsPublisher (snd s)) MAX_MEASUREMENTS) as [Hlt|Hge].
    + destruct (Hroom ltac:(lia)) as (_ & _ & Hnext).
      specialize (IH (userApplicationPubSub_body cfg e (fst s, user_env_apply e (snd s)))
                     Hlog ltac:(lia)).
      rewrite Hnext in IH. lia.
    + destruct (Hfull Hge) as [_ Hoff].
      rewrite userApplicationPubSub_loop_not_running by assumption. simpl. lia.
Qed.

(** X13.  With logging enabled the measurement log bounds the run: the
    user application's loop makes at most
    [MAX_MEASUREMENTS - measurementsPublisher + 1] iterations from a state
    with that count, however long [running] is left alone from outside;
    from an empty log, at most [MAX_MEASUREMENTS + 1]. *)
Theorem userApplicationPubSub_loop_bounded_by_log
    (cfg : config) (envs : list user_env) (s : timespec * globals) :
  enableCsvLog cfg = true ->
  0 <= measurementsPublisher (snd s) <= MAX_MEASUREMENTS ->
  Z.of_nat (fst (userApplicationPubSub_loop cfg envs s))
  <= MAX_MEASUREMENTS - measurementsPublisher (snd s) + 1.
Proof. apply userApplicationPubSub_loop_bound. Qed.

Lemma userApplicationPubSub_loop_bounded_by_log_witness :
  let e := {| ue_signal := false; ue_received := None;
              ue_modification_time := {| tv_sec := 1005; tv_nsec := 75100 |};
              ue_receive_time := {| tv_sec := 1005; tv_nsec := 75200 |} |} in
  let g := set_publish_log ∅ ∅ (MAX_MEASUREMENTS - 1) initial_globals in
  let s := ({| tv_sec := 1005; tv_nsec := 75000 |}, g) in
  Z.of_nat (fst (userApplicationPubSub_loop (set_enableCsvLog true default_config)
                   [e; e; e; e; e] s))
  <= MAX_MEASUREMENTS - measurementsPublisher (snd s) + 1.
Proof.
  intros e g s.
  apply (userApplicationPubSub_loop_bounded_by_log (set_enableCsvLog true default_config)
           [e; e; e; e; e] s).
  - reflexivity.
  - vm_compute. split; discriminate.
Defined.

Example userApplicationPubSub_loop_stops_on_full_log :
  let e := {| ue_signal := false; ue_received := None;
              ue_modification_time := {| tv_sec := 1005; tv_nsec := 75100 |};
              ue_receive_time := {| tv_sec := 1005; tv_nsec := 75200 |} |} in
  let g := set_publish_log ∅ ∅ (MAX_MEASUREMENTS - 1) initial_globals in
  let r := userApplicationPubSub_loop (set_enableCsvLog true default_config)
             [e; e; e; e; e] ({| tv_sec := 1005; tv_nsec := 75000 |}, g) in
  fst r = 2%nat /\ running (snd (snd r)) = false /\
  measurementsPublisher (snd (snd r)) = MAX_MEASUREMENTS.
Proof. vm_compute. repeat split. Qed.

Lemma userApplicationPubSub_iterations_app cfg envs1 : forall envs2 s,
  userApplicationPubSub_iterations cfg (envs1 ++ envs2) s =
  userApplicationPubSub_iterations cfg envs2 (userApplicationPubSub_iterations cfg envs1 s).
Proof.
  induction envs1 as [|e envs1 IH]; intros envs2 s; [reflexivity|].
  cbn [app userApplicationPubSub_iterations]. apply IH.
Qed.

Lemma userApplicationPubSub_iterations_log cfg envs : forall s,
  enableCsvLog cfg = true -> is_u64 (pubCounterData (snd s)) ->
  measurementsPublisher (snd s) = 0 ->
  publishCounterValue (snd s) = ∅ -> publishTimestamp (snd s) = ∅ ->
  Z.of_nat (length envs) <= MAX_MEASUREMENTS ->
  let g' := snd (userApplicationPubSub_iterations cfg envs s) in
  measurementsPublisher g' = Z.of_nat (length envs) /\
  (forall (i : nat) e, envs !! i = Some e ->
     publishCounterValue g' !! Z.of_nat i =
       Some (wrap_u64 (pubCounterData (snd s) + Z.of_nat i + 1)) /\
     publishTimestamp g' !! Z.of_nat i = Some (ue_modification_time e)) /\
  (forall i : Z, Z.of_nat (length envs) <= i ->
     publishCounterValue g' !! i = None /\ publishTimestamp g' !! i = None).
Proof.
  induction envs as [|x envs IH] using rev_ind; intros s Hlog Hu Hc Hv Ht Hlen.
  - simpl. split; [assumption|]. split.
    + intros i e Hi. rewrite lookup_nil in Hi. discriminate.
    + intros i _. rewrite Hv, Ht, !lookup_empty. split; reflexivity.
  - rewrite length_app in *. cbn [length] in *.
    destruct (IH s Hlog Hu Hc Hv Ht ltac:(lia)) as (Hcount & Hold & Hnone).
    rewrite userApplicationPubSub_iterations_app. cbn [userApplicationPubSub_iterations].
    pose proof (userApplicationPubSub_iterations_pubCounterData cfg envs s Hu) as Hpub.
    set (sn := userApplicationPubSub_iterations cfg envs s) in *.
    destruct (user_env_apply_frame x (snd sn)) as (F1 & F2 & F3 & _).
    destruct (user_env_apply_counters x (snd sn)) as [C1 _].
    destruct (userApplicationPubSub_body_publisher_log cfg x
                (fst sn, user_env_apply x (snd sn)) Hlog) as (Hroom & _ & _).
    cbn [snd] in Hroom. rewrite F1, F2, F3, C1, Hcount, Hpub in Hroom.
    destruct (Hroom ltac:(lia)) as (Hv' & Ht' & Hc'). cbv zeta.
    rewrite Hv', Ht', Hc'. rewrite wrap_u64_add_l.
    split; [lia|]. split.
    + intros i e Hi. destruct (decide (i < length envs)%nat) as [Hlt|Hge].
      * rewrite lookup_app_l in Hi by assumption.
        rewrite !lookup_insert_ne by lia. apply Hold. assumption.
      * assert (i = length envs).
        { apply lookup_lt_Some in Hi. rewrite length_app in Hi. simpl in Hi. lia. }
        subst i. rewrite list_lookup_middle in Hi by reflexivity.
        injection Hi as <-. rewrite !lookup_insert_eq. split; reflexivity.
    + intros i Hi. rewrite !lookup_insert_ne by lia. apply Hnone. lia.
Qed.

(** X14.  With logging enabled the publisher's log records the run of the
    user application one entry per iteration: starting from an empty log
    and a counter value [c0], after [n <= MAX_MEASUREMENTS] iterations the
    count is [n], entry [i] holds the counter value [c0 + i + 1] (in
    [UA_UInt64]) together with the clock reading taken in iteration [i],
    and nothing is stored from index [n] on. *)
Theorem userApplicationPubSub_logs_every_iteration
    (cfg : config) (envs : list user_env) (s : timespec * globals) :
  enableCsvLog cfg = true -> is_u64 (pubCounterData (snd s)) ->
  measurementsPublisher (snd s) = 0 ->
  publishCounterValue (snd s) = ∅ -> publishTimestamp (snd s) = ∅ ->
  Z.of_nat (length envs) <= MAX_MEASUREMENTS ->
  let g' := snd (userApplicationPubSub_iterations cfg envs s) in
  measurementsPublisher g' = Z.of_nat (length envs) /\
  (forall (i : nat) e, envs !! i = Some e ->
     publishCounterValue g' !! Z.of_nat i =
       Some (wrap_u64 (pubCounterData (snd s) + Z.of_nat i + 1)) /\
     publishTimestamp g' !! Z.of_nat i = Some (ue_modification_time e)) /\
  (forall i : Z, Z.of_nat (length envs) <= i ->
     publishCounterValue g' !! i = None /\ publishTimestamp g' !! i = None).
Proof. apply userApplicationPubSub_iterations_log. Qed.

Lemma userApplicationPubSub_logs_every_iteration_witness :
  let cfg := set_enableCsvLog true default_config in
  let e1 := {| ue_signal := false; ue_received := None;
               ue_modification_time := {| tv_sec := 1005; tv_nsec := 75100 |};
               ue_receive_time := {| tv_sec := 1005; tv_nsec := 75200 |} |} in
  let e2 := {| ue_signal := false; ue_received := Some 3;
               ue_modification_time := {| tv_sec := 1005; tv_nsec := 325100 |};
               ue_receive_time := {| tv_sec := 1005; tv_nsec := 325200 |} |} in
  let envs := [e1; e2] in
  let s := ({| tv_sec := 1005; tv_nsec := 75000 |}, initial_globals) in
  let g' := snd (userApplicationPubSub_iterations cfg envs s) in
  measurementsPublisher g' = Z.of_nat (length envs) /\
  (forall (i : nat) e, envs !! i = Some e ->
     publishCounterValue g' !! Z.of_nat i =
       Some (wrap_u64 (pubCounterData (snd s) + Z.of_nat i + 1)) /\
     publishTimestamp g' !! Z.of_nat i = Some (ue_modification_time e)) /\
  (forall i : Z, Z.of_nat (length envs) <= i ->
     publishCounterValue g' !! i = None /\ publishTimestamp g' !! i = None).
Proof.
  intros cfg e1 e2 envs s.
  apply (userApplicationPubSub_logs_every_iteration cfg envs s); try reflexivity.
  - unfold is_u64. simpl. lia.
  - vm_compute. intros H. discriminate H.
Defined.

Lemma userApplicationPubSub_body_deadline cfg e s :
  fst (userApplicationPubSub_body cfg e s) =
  advance_deadline (dbl_to_slong (mul_MILLI_SECONDS (cycleTimeInMsec cfg))) (fst s).
Proof. reflexivity. Qed.

Lemma userApplicationPubSub_iterations_deadline cfg envs : forall s,
  fst (userApplicationPubSub_iterations cfg envs s) =
  deadline_after (dbl_to_slong (mul_MILLI_SECONDS (cycleTimeInMsec cfg)))
    (length envs) (fst s).
Proof.
  induction envs as [|e envs IH]; intros s; [reflexivity|].
  cbn [userApplicationPubSub_iterations length]. rewrite IH, deadline_after_S. reflexivity.
Qed.

Lemma userApplicationPubSub_loop_deadline cfg envs : forall s,
  fst (snd (userApplicationPubSub_loop cfg envs s)) =
  deadline_after (dbl_to_slong (mul_MILLI_SECONDS (cycleTimeInMsec cfg)))
    (fst (userApplicationPubSub_loop cfg envs s)) (fst s).
Proof.
  induction envs as [|e envs IH]; intros s; [reflexivity|].
  cbn [userApplicationPubSub_loop].
  destruct (running (user_env_apply e (snd s))); [|reflexivity].
  cbn [fst snd]. rewrite IH, deadline_after_S. reflexivity.
Qed.

(** X15.  The user application keeps its period whatever its payload does:
    with [step = (long)(cycleTimeInMsec * 1000 * 1000)], the deadline after
    [N] iterations is the deadline before them plus [N * step], with or
    without logging, signals or received data, and the same when the
    [while (running)] loop stops by itself after [N] iterations.  As the
    unsigned 64-bit nanosecond count this holds without condition; it is the
    exact integer, in normalised form, when the deadline starts normalised,
    [0 <= step <= 2^63 - 10^9] and the seconds stay within [time_t]. *)
Theorem userApplicationPubSub_deadline_no_drift
    (cfg : config) (envs : list user_env) (s : timespec * globals) :
  valid_timespec (fst s) ->
  let step := dbl_to_slong (mul_MILLI_SECONDS (cycleTimeInMsec cfg)) in
  let N := Z.of_nat (length envs) in
  let d := fst (userApplicationPubSub_iterations cfg envs s) in
  let r := userApplicationPubSub_loop cfg envs s in
  wrap_u64 (timespec_ns d) = wrap_u64 (timespec_ns (fst s) + N * step) /\
  wrap_u64 (timespec_ns (fst (snd r))) =
    wrap_u64 (timespec_ns (fst s) + Z.of_nat (fst r) * step) /\
  (0 <= tv_nsec (fst s) < 10 ^ 9 -> 0 <= step <= 2 ^ 63 - 10 ^ 9 ->
   tv_sec (fst s) + (tv_nsec (fst s) + N * step) / 10 ^ 9 < 2 ^ 63 ->
   timespec_ns d = timespec_ns (fst s) + N * step /\ 0 <= tv_nsec d < 10 ^ 9).
Proof.
  intros Hv step N d r.
  assert (Hstep : wrap_s64 step = step) by (apply wrap_s64_id, dbl_to_slong_range).
  unfold d, r. rewrite userApplicationPubSub_iterations_deadline.
  rewrite userApplicationPubSub_loop_deadline. fold step.
  set (D := deadline_after step).
  assert (HD : D = deadline_after (wrap_s64 step)) by (unfold D; rewrite Hstep; reflexivity).
  rewrite HD. clear D HD.
  split; [apply deadline_after_ns_u64; assumption|].
  split; [apply deadline_after_ns_u64; assumption|].
  change (10 ^ 9) with SECONDS. intros Hnorm Hs Hfit.
  apply deadline_after_ns_exact; assumption.
Qed.

Lemma userApplicationPubSub_deadline_no_drift_witness :
  let cfg := set_enableCsvLog true default_config in
  let e := {| ue_signal := false; ue_received := Some 3;
              ue_modification_time := {| tv_sec := 1005; tv_nsec := 999900000 |};
              ue_receive_time := {| tv_sec := 1005; tv_nsec := 999900100 |} |} in
  let envs := [e; e; e] in
  let s := ({| tv_sec := 1005; tv_nsec := 999825000 |}, initial_globals) in
  let step := dbl_to_slong (mul_MILLI_SECONDS (cycleTimeInMsec cfg)) in
  let N := Z.of_nat (length envs) in
  let d := fst (userApplicationPubSub_iterations cfg envs s) in
  let r := userApplicationPubSub_loop cfg envs s in
  wrap_u64 (timespec_ns d) = wrap_u64 (timespec_ns (fst s) + N * step) /\
  wrap_u64 (timespec_ns (fst (snd r))) =
    wrap_u64 (timespec_ns (fst s) + Z.of_nat (fst r) * step) /\
  (0 <= tv_nsec (fst s) < 10 ^ 9 -> 0 <= step <= 2 ^ 63 - 10 ^ 9 ->
   tv_sec (fst s) + (tv_nsec (fst s) + N * step) / 10 ^ 9 < 2 ^ 63 ->
   timespec_ns d = timespec_ns (fst s) + N * step /\ 0 <= tv_nsec d < 10 ^ 9).
Proof.
  intros cfg e envs s.
  apply (userApplicationPubSub_deadline_no_drift cfg envs s).
  split; unfold is_s64; simpl; lia.
Defined.

(** The publisher converts its interval through [UA_UInt64], the user
    application converts the cycle time straight to [long]; for a value
    that is not negative as a [long] the two conversions agree. *)
Lemma dbl_to_uint64_slong x :
  0 <= dbl_to_slong x -> wrap_s64 (dbl_to_uint64 x) = dbl_to_slong x.
Proof.
  unfold dbl_to_uint64, dbl_to_slong. destruct (dbl_trunc x) as [z|]; [|lia].
  destruct (Z.leb_spec (- 2 ^ 63) z) as [Hlo|Hlo], (Z.ltb_spec z (2 ^ 63)) as [Hhi|Hhi];
    simpl; try lia.
  intros Hnn. destruct (Z.leb_spec 0 z), (Z.ltb_spec z (2 ^ 64)); simpl; try lia.
  apply wrap_s64_id. unfold is_s64. lia.
Qed.

(** X16.  Given the same cycle time, the publisher thread and the user
    application stay a fixed distance apart: when the interval handed to
    the publisher is [cycleTimeInMsec] and its nanosecond value is not
    negative, then after any number [k] of cycles of both, the user
    application's deadline minus the publisher's is what it was at the
    start, as an unsigned 64-bit nanosecond count. *)
Theorem publisher_and_user_application_in_step
    (cfg : config) (arg : threadArg) (roundOff qbv : Z) (pub0 : timespec)
    (envs : list user_env) (s : timespec * globals) (N : nat) :
  interval_ms arg = cycleTimeInMsec cfg ->
  0 <= dbl_to_slong (mul_MILLI_SECONDS (cycleTimeInMsec cfg)) ->
  valid_timespec pub0 -> valid_timespec (fst s) -> (length envs < N)%nat ->
  exists dp tx,
    publisherETF_loop (dbl_to_uint64 (mul_MILLI_SECONDS (interval_ms arg))) roundOff qbv
      (replicate N true) pub0 !! length envs = Some (dp, tx) /\
    wrap_u64 (timespec_ns (fst (userApplicationPubSub_iterations cfg envs s)) - timespec_ns dp) =
    wrap_u64 (timespec_ns (fst s) - timespec_ns pub0).
Proof.
  intros Hint Hstep Hvp Hvu Hk. rewrite Hint.
  set (x := mul_MILLI_SECONDS (cycleTimeInMsec cfg)) in *.
  set (P := dbl_to_uint64 x).
  exists (deadline_after (wrap_s64 P) (length envs) pub0),
         (transmission_time roundOff qbv (deadline_after (wrap_s64 P) (length envs) pub0)).
  split; [apply publisherETF_loop_lookup; assumption|].
  rewrite userApplicationPubSub_iterations_deadline. fold x.
  rewrite <- (dbl_to_uint64_slong x Hstep). fold P.
  pose proof (deadline_after_ns_u64 P (length envs) pub0 Hvp) as Hp.
  pose proof (deadline_after_ns_u64 P (length envs) (fst s) Hvu) as Hu.
  apply wrap_u64_eq_iff in Hp. destruct Hp as [q1 Hq1].
  apply wrap_u64_eq_iff in Hu. destruct Hu as [q2 Hq2].
  apply wrap_u64_eq_iff. exists (q2 - q1). lia.
Qed.

Lemma publisher_and_user_application_in_step_witness :
  let cfg := default_config in
  let arg := {| interval_ms := DEFAULT_CYCLE_TIME |} in
  let e := {| ue_signal := false; ue_received := None;
              ue_modification_time := {| tv_sec := 1005; tv_nsec := 75100 |};
              ue_receive_time := {| tv_sec := 1005; tv_nsec := 75200 |} |} in
  let envs := [e; e; e] in
  let pub0 := {| tv_sec := 1005; tv_nsec := 150000 |} in
  let s := ({| tv_sec := 1005; tv_nsec := 75000 |}, initial_globals) in
  exists dp tx,
    publisherETF_loop (dbl_to_uint64 (mul_MILLI_SECONDS (interval_ms arg))) 100000 125
      (replicate 5 true) pub0 !! length envs = Some (dp, tx) /\
    wrap_u64 (timespec_ns (fst (userApplicationPubSub_iterations cfg envs s)) - timespec_ns dp) =
    wrap_u64 (timespec_ns (fst s) - timespec_ns pub0).
Proof.
  intros cfg arg e envs pub0 s.
  apply (publisher_and_user_application_in_step cfg arg 100000 125 pub0 envs s 5).
  - reflexivity.
  - vm_compute. discriminate.
  - split; unfold is_s64; simpl; lia.
  - split; unfold is_s64; simpl; lia.
  - simpl. lia.
Defined.

(** ** Start-up, further *)

Lemma process_options_help opts : forall c,
  In opt_help opts -> process_options opts c = None.
Proof.
  induction opts as [|o opts IH]; intros c Hin; [destruct Hin|].
  destruct Hin as [->|Hin]; [reflexivity|].
  destruct o; simpl; try reflexivity; apply IH; assumption.
Qed.

(** X17.  [-help] wins over everything else on the command line: wherever
    it stands and whatever the other options are, [main] prints the usage
    text and returns -1 without opening a file, allocating, or setting up
    any part of the server. *)
Theorem main_help (opts : list cli_option) (env : main_env) :
  In opt_help opts -> main opts env = (-1, [ev_usage]).
Proof.
  intros Hin. unfold main. rewrite process_options_help by assumption. reflexivity.
Qed.

Lemma main_help_witness :
  main [opt_interface "eth0"; opt_enableCsvLog; opt_help; opt_cycleTimeInMsec (dbl_lit 5 10)]
    {| env_transport_layers_allocated := true;
       env_user_thread := {| r_setschedparam := 0; r_setaffinity_np := 0; r_create := 0 |};
       env_server_run := 0; env_join := 0 |}
  = (-1, [ev_usage]).
Proof.
  apply (main_help [opt_interface "eth0"; opt_enableCsvLog; opt_help;
                    opt_cycleTimeInMsec (dbl_lit 5 10)]).
  right. right. left. reflexivity.
Defined.

Lemma process_options_app opts1 : forall opts2 c,
  process_options (opts1 ++ opts2) c =
  match process_options opts1 c with
  | Some c1 => process_options opts2 c1
  | None => None
  end.
Proof.
  induction opts1 as [|o opts1 IH]; intros opts2 c; [reflexivity|].
  destruct o; simpl; try apply IH. reflexivity.
Qed.

Lemma process_options_cycleTimeInMsec opts : forall c c',
  (forall v, ~ In (opt_cycleTimeInMsec v) opts) ->
  process_options opts c = Some c' -> cycleTimeInMsec c' = cycleTimeInMsec c.
Proof.
  induction opts as [|o opts IH]; intros c c' Hno Hp.
  - simpl in Hp. congruence.
  - assert (Hno' : forall v, ~ In (opt_cycleTimeInMsec v) opts).
    { intros v Hv. apply (Hno v). right. assumption. }
    destruct o; simpl in Hp; try discriminate;
      try (rewrite (IH _ _ Hno' Hp); reflexivity).
    exfalso. apply (Hno value). left. reflexivity.
Qed.

(** X18.  When an option is given more than once the last occurrence
    counts: the interface and the cycle time that [main] checks and uses are
    those of the last [-interface] and the last [-cycleTimeInMsec] on the
    command line. *)
Theorem process_options_last_wins (opts1 opts2 : list cli_option) (c c' : config) :
  (forall a : string,
     (forall a', ~ In (opt_interface a') opts2) ->
     process_options (opts1 ++ opt_interface a :: opts2) c = Some c' ->
     interface c' = Some a) /\
  (forall v : UA_Double,
     (forall v', ~ In (opt_cycleTimeInMsec v') opts2) ->
     process_options (opts1 ++ opt_cycleTimeInMsec v :: opts2) c = Some c' ->
     cycleTimeInMsec c' = v).
Proof.
  split; intros a Hno Hp; rewrite process_options_app in Hp;
    destruct (process_options opts1 c) as [c1|]; try discriminate; simpl in Hp.
  - rewrite (process_options_interface _ _ _ Hno Hp). reflexivity.
  - rewrite (process_options_cycleTimeInMsec _ _ _ Hno Hp). reflexivity.
Qed.

Lemma process_options_last_wins_witness :
  let c' :=
    set_enableCsvLog true
      (set_interface (Some "eth1")
         (set_cycleTimeInMsec (dbl_lit 5 10)
            (set_cycleTimeInMsec (dbl_lit 1 10)
               (set_interface (Some "eth0") default_config)))) in
  cycleTimeInMsec c' = dbl_lit 5 10.
Proof.
  intros c'.
  apply (proj2 (process_options_last_wins
                  [opt_interface "eth0"; opt_cycleTimeInMsec (dbl_lit 1 10)]
                  [opt_interface "eth1"; opt_enableCsvLog] default_config c')
           (dbl_lit 5 10)).
  - intros v' [H|[H|[]]]; discriminate H.
  - reflexivity.
Defined.

(** X19.  [main] reaches the set-up that can start a publisher, subscriber
    or user application thread exactly when the options are accepted (no
    [-help], an interface, a cycle time that does not compare below 0.125)
    and the transport-layer table could be allocated; on every other path
    nothing of the kind happens. *)
Theorem main_starts_threads_iff (opts : list cli_option) (env : main_env) :
  Exists (fun ev => starts_role_thread ev = true) (snd (main opts env)) <->
  exists c, process_options opts default_config = Some c /\
            interface c <> None /\
            dbl_ltb (cycleTimeInMsec c) (dbl_lit 125 1000) = false /\
            env_transport_layers_allocated env = true.
Proof.
  rewrite List.Exists_exists. unfold main.
  destruct (process_options opts default_config) as [c|].
  - destruct (interface c) as [a|] eqn:Hif.
    + destruct (dbl_ltb (cycleTimeInMsec c) (dbl_lit 125 1000)) eqn:Hlt.
      * split.
        -- intros (ev & Hin & Hst). simpl in Hin.
           repeat (destruct Hin as [<-|Hin]; [simpl in Hst; discriminate Hst|]). destruct Hin.
        -- intros (c0 & Hc & _ & Hge & _). injection Hc as <-. congruence.
      * destruct (env_transport_layers_allocated env) eqn:Halloc.
        -- split.
           ++ intros _. exists c. rewrite Hif. repeat split; congruence.
           ++ intros _. exists ev_setup_writer_group. split; [|reflexivity].
              simpl negb. cbv iota.
              destruct (threadCreation routine_userApplicationPubSub (env_user_thread env));
                cbn [snd]; rewrite !in_app_iff; simpl; tauto.
        -- split.
           ++ intros (ev & Hin & Hst). destruct (enableCsvLog c); simpl in Hin;
                repeat (destruct Hin as [<-|Hin]; [simpl in Hst; discriminate Hst|]); destruct Hin.
           ++ intros (c0 & _ & _ & _ & Hal). congruence.
    + split.
      * intros (ev & Hin & Hst). simpl in Hin.
        repeat (destruct Hin as [<-|Hin]; [simpl in Hst; discriminate Hst|]). destruct Hin.
      * intros (c0 & Hc & Hne & _). injection Hc as <-. congruence.
  - split.
    + intros (ev & Hin & Hst). simpl in Hin.
      repeat (destruct Hin as [<-|Hin]; [simpl in Hst; discriminate Hst|]). destruct Hin.
    + intros (c0 & Hc & _). discriminate.
Qed.







(** Without callbacks during the set-up, [main_with_callbacks] is [main]. *)
Lemma main_with_callbacks_none opts env :
  main_with_callbacks opts env
    {| env_writer_group_callbacks := []; env_reader_group_callbacks := [] |} =
  main opts env.
Proof.
  unfold main_with_callbacks, main.
  destruct (process_options opts default_config) as [c|]; [|reflexivity].
  destruct (interface c); [|reflexivity].
  destruct (dbl_ltb (cycleTimeInMsec c) (dbl_lit 125 1000)); [reflexivity|].
  destruct (negb (env_transport_layers_allocated env)); [reflexivity|].
  simpl. rewrite <- !app_assoc. simpl.
  destruct (threadCreation routine_userApplicationPubSub (env_user_thread env));
    reflexivity.
Qed.



(** The subscriber's priority cannot be set while the reader group is set
    up: the process ends there with status 1, after the publisher thread
    was created; neither the user application thread nor the server loop
    is reached. *)
Example main_exits_in_reader_group_setup :
  main_with_callbacks [opt_interface "eth0"]
    {| env_transport_layers_allocated := true;
       env_user_thread := {| r_setschedparam := 0; r_setaffinity_np := 0; r_create := 0 |};
       env_server_run := 0; env_join := 0 |}
    {| env_writer_group_callbacks :=
         [(true, {| r_setschedparam := 0; r_setaffinity_np := 0; r_create := 0 |})];
       env_reader_group_callbacks :=
         [(false, {| r_setschedparam := 1; r_setaffinity_np := 0; r_create := 0 |})] |}
  = (1, [ev_addServerNodes; ev_setup_writer_group; ev_pthread_create routine_publisherETF;
         ev_setup_reader_group]).
Proof. reflexivity. Qed.

(** X21.  The cycle-time check is the comparison [cycleTimeInMsec < 0.125]
    and nothing else: a cycle time that is not a number, or is infinite,
    does not compare below 0.125 and is accepted like a valid one, so that
    with an interface and the transport-layer table allocated [main] goes on
    to set up the writer group. *)
Theorem main_accepts_nan_cycle_time (opts : list cli_option) (env : main_env) (c : config) :
  process_options opts default_config = Some c ->
  interface c <> None ->
  cycleTimeInMsec c = S754_nan \/ cycleTimeInMsec c = S754_infinity false ->
  env_transport_layers_allocated env = true ->
  In ev_setup_writer_group (snd (main opts env)) /\
  ~ In (ev_log_error "Bad cycle time") (snd (main opts env)).
Proof.
  intros Hp Hif Hnan Halloc. unfold main. rewrite Hp.
  destruct (interface c); [|congruence].
  assert (Hge : dbl_ltb (cycleTimeInMsec c) (dbl_lit 125 1000) = false).
  { destruct Hnan as [-> | ->]; reflexivity. }
  rewrite Hge, Halloc. simpl negb. cbv iota. unfold threadCreation.
  destruct (negb (r_setschedparam (env_user_thread env) =? 0));
    [|destruct (negb (r_setaffinity_np (env_user_thread env) =? 0));
      [|destruct (negb (r_create (env_user_thread env) =? 0))]];
    cbn [snd]; destruct (enableCsvLog c); destruct (negb (env_join env =? 0));
    simpl; (split; [tauto | intuition discriminate]).
Qed.

Lemma main_accepts_nan_cycle_time_witness :
  let opts := [opt_interface "eth0"; opt_cycleTimeInMsec S754_nan] in
  let env := {| env_transport_layers_allocated := true;
                env_user_thread := {| r_setschedparam := 0; r_setaffinity_np := 0;
                                      r_create := 0 |};
                env_server_run := 0; env_join := 0 |} in
  In ev_setup_writer_group (snd (main opts env)) /\
  ~ In (ev_log_error "Bad cycle time") (snd (main opts env)).
Proof.
  intros opts env.
  apply (main_accepts_nan_cycle_time opts env
           (set_cycleTimeInMsec S754_nan (set_interface (Some "eth0") default_config))).
  - reflexivity.
  - discriminate.
  - left. reflexivity.
  - reflexivity.
Defined.
